(** * zram sysfs control plane: statistics aggregation and lifecycle writes

    A shallow embedding of [drivers/staging/zram/zram_sysfs.c]: the per-CPU
    statistic sum [zram_get_stat], the registry scan [dev_to_zram], the
    attribute writers [disksize_store] and [reset_store] and the derived
    readers [orig_data_size_show] and [mem_used_total_show].

    Kernel memory is a table of device descriptors plus a trace of the calls
    made to collaborators that live outside this file; a NULL dereference is
    an explicit outcome of a computation. *)

From Stdlib Require Import ZArith Lia String Ascii List Bool.
From stdpp Require Import base list.

Local Open Scope Z_scope.

(** ** Machine integers *)

Module Int64.

Definition modulus : Z := 2 ^ 64.
Definition min_s64 : Z := - 2 ^ 63.
Definition max_s64 : Z := 2 ^ 63 - 1.

(** Conversion of an integer to [u64]: the value modulo [2^64]. *)
Definition to_u64 (z : Z) : Z := z mod modulus.

(** The value an [s64] object holds after an arithmetic result [z] is stored
    in it (the kernel is built with wrapping signed arithmetic). *)
Definition wrap_s64 (z : Z) : Z := (z + 2 ^ 63) mod modulus - 2 ^ 63.

(** [a << k] on [u64]. *)
Definition shl64 (a k : Z) : Z := to_u64 (Z.shiftl a k).

(** [a + b] on [u64]. *)
Definition add64 (a b : Z) : Z := to_u64 (a + b).

End Int64.

Import Int64.

(** ** Data model *)

(** Modelled from the spec: [enum zram_stats_index] of [zram_drv.h], one
    constant for each of the nine statistic kinds, under the names this file
    uses for them. *)
Inductive zram_stats_index : Type :=
  | ZRAM_STAT_COMPR_SIZE
  | ZRAM_STAT_NUM_READS
  | ZRAM_STAT_NUM_WRITES
  | ZRAM_STAT_INVALID_IO
  | ZRAM_STAT_NOTIFY_FREE
  | ZRAM_STAT_DISCARD
  | ZRAM_STAT_PAGES_ZERO
  | ZRAM_STAT_PAGES_STORED
  | ZRAM_STAT_PAGES_EXPAND.

(** [struct zram_stats_cpu]: one CPU's shard, [s64 count[idx]] guarded by the
    generation marker [syncp]. *)
Record zram_stats_cpu : Type := mk_stats_cpu {
  count : zram_stats_index -> Z;
  syncp : Z
}.

(** A [struct device *] is compared by address only. *)
Definition device : Type := Z.

(** [struct block_device]: the holder count is all this file reads. *)
Record block_device : Type := mk_bdev {
  bd_holders : Z
}.

(** [struct gendisk]: the address of its embedded [struct device], the
    capacity in sectors, and the block device [bdget_disk] finds for partition
    0, [None] when the lookup yields NULL. *)
Record gendisk : Type := mk_gendisk {
  disk_dev : device;
  capacity : Z;
  part0_bdev : option block_device
}.

(** The memory pool of the compression layer, seen through its byte total. *)
Record xv_pool : Type := mk_pool {
  total_size_bytes : Z
}.

(** [struct zram]: the device descriptor. *)
Record zram : Type := mk_zram {
  mem_pool : xv_pool;
  disk : gendisk;
  init_done : Z;
  disksize : Z;
  stats : list zram_stats_cpu
}.

Definition set_disksize (v : Z) (z : zram) : zram :=
  {| mem_pool := mem_pool z; disk := disk z; init_done := init_done z;
     disksize := v; stats := stats z |}.

Definition set_disk (d : gendisk) (z : zram) : zram :=
  {| mem_pool := mem_pool z; disk := d; init_done := init_done z;
     disksize := disksize z; stats := stats z |}.

Definition with_capacity (sectors : Z) (d : gendisk) : gendisk :=
  {| disk_dev := disk_dev d; capacity := sectors; part0_bdev := part0_bdev d |}.

(** Calls that leave this file, in the order they are made. *)
Inductive event : Type :=
  | EvWarnOn
  | EvPrInfo (msg : string)
  | EvFsyncBdev (d : device)
  | EvResetDevice (i : nat).

(** Kernel state: [zram_devices] (its length is [num_devices]) and the trace
    of outside calls, latest first. *)
Record kstate : Type := mk_kstate {
  zram_devices : list zram;
  trace : list event
}.

(** ** Computations *)

(** A call returns, dereferences NULL, or is still retrying a per-CPU read
    when its step budget is spent. *)
Inductive result (A : Type) : Type :=
  | Ret (a : A)
  | Oops
  | Spin.

Arguments Ret {A} a.
Arguments Oops {A}.
Arguments Spin {A}.

Definition M (A : Type) : Type := kstate -> result (A * kstate).

Definition ret {A : Type} (a : A) : M A := fun st => Ret (a, st).

Definition bind {A B : Type} (c : M A) (k : A -> M B) : M B :=
  fun st =>
    match c st with
    | Ret (a, st') => k a st'
    | Oops => Oops
    | Spin => Spin
    end.

Declare Scope kernel_scope.
Delimit Scope kernel_scope with kernel.
Notation "x <- c ;; k" := (bind c (fun x => k))
  (at level 100, c at next level, right associativity) : kernel_scope.
Notation "c ;;; k" := (bind c (fun _ => k))
  (at level 100, right associativity) : kernel_scope.
Local Open Scope kernel_scope.

Definition oops {A : Type} : M A := fun _ => Oops.

Definition emit (e : event) : M unit :=
  fun st => Ret (tt, {| zram_devices := zram_devices st; trace := e :: trace st |}).

(** A [struct zram *]: NULL or the address of [zram_devices[i]]. *)
Definition zram_ptr : Type := option nat.

(** Reading through a descriptor pointer. *)
Definition deref (p : zram_ptr) : M zram :=
  fun st =>
    match p with
    | Some i =>
        match zram_devices st !! i with
        | Some z => Ret (z, st)
        | None => Oops
        end
    | None => Oops
    end.

(** Writing through a descriptor pointer. *)
Definition update (p : zram_ptr) (f : zram -> zram) : M unit :=
  fun st =>
    match p with
    | Some i =>
        match zram_devices st !! i with
        | Some z =>
            Ret (tt, {| zram_devices := <[i := f z]> (zram_devices st);
                        trace := trace st |})
        | None => Oops
        end
    | None => Oops
    end.

(** ** Collaborators declared outside this file *)

(** [errno] values of [asm-generic/errno-base.h]. *)
Definition EBUSY : Z := 16.
Definition EINVAL : Z := 22.

(** [SECTOR_SHIFT] of [zram_drv.h]: sectors are 512 bytes. *)
Definition SECTOR_SHIFT : Z := 9.

Definition newline : ascii := ascii_of_nat 10.

Definition text_line (s : string) : string :=
  String.append s (String newline EmptyString).

(** The value of a decimal digit character. *)
Definition digit_val (c : ascii) : option Z :=
  let n := Z.of_nat (nat_of_ascii c) in
  if (48 <=? n) && (n <=? 57) then Some (n - 48) else None.

(** Horner evaluation of a run of digits, [acc] holding the digits read. *)
Fixpoint parse_digits (s : string) (acc : Z) : option Z :=
  match s with
  | EmptyString => Some acc
  | String c s' =>
      match digit_val c with
      | Some d => parse_digits s' (10 * acc + d)
      | None => None
      end
  end.

(** Modelled from the spec: the decimal parser behind [strict_strtoull] and
    [strict_strtoul] (lib/vsprintf.c is not part of the sources). The text
    "parses the string as an unsigned 64-bit integer; fails on parse error" is
    read as: a non-empty run of decimal digits whose value fits the width. *)
Definition parse_unsigned (bits : Z) (s : string) : option Z :=
  match s with
  | EmptyString => None
  | String _ _ =>
      match parse_digits s 0 with
      | Some v => if v <? 2 ^ bits then Some v else None
      | None => None
      end
  end.

Definition digit_char (d : Z) : ascii := ascii_of_nat (Z.to_nat (48 + d)).

(** The decimal digits of [v], least significant first, put in front of
    [acc]; [fuel] bounds the number of digits. *)
Fixpoint put_dec (fuel : nat) (v : Z) (acc : string) : string :=
  match fuel with
  | O => acc
  | S fuel' =>
      let acc' := String (digit_char (v mod 10)) acc in
      if v / 10 =? 0 then acc' else put_dec fuel' (v / 10) acc'
  end.

(** Modelled from the spec: [sprintf(buf, "%llu\n", v)], "plain decimal text
    terminated by a single newline"; a [u64] has at most 20 digits. The pair
    is the number of characters written and the buffer. *)
Definition sprintf_llu (v : Z) : Z * string :=
  let s := put_dec 20 v (String newline EmptyString) in
  (Z.of_nat (String.length s), s).

(** [sprintf(buf, "%u\n", v)]: the [int] is printed as an [unsigned int]. *)
Definition sprintf_u (v : Z) : Z * string := sprintf_llu (v mod 2 ^ 32).

(** Permission bits of [linux/stat.h]: readable by all, writable by all. *)
Definition S_IRUGO : Z := 292.
Definition S_IWUGO : Z := 146.

(** Modelled from the spec: [u64_stats_fetch_begin] "reads a generation
    marker" of the shard. *)
Definition u64_stats_fetch_begin (sync : Z) : Z := sync.

(** Modelled from the spec: [u64_stats_fetch_retry] re-reads the marker and
    asks for another round "if the two generation readings differ". *)
Definition u64_stats_fetch_retry (sync start : Z) : bool := negb (sync =? start).

(** Modelled from the spec: [xv_get_total_size_bytes], the pool's
    "totalOccupiedBytes(pool) -> u64". *)
Definition xv_get_total_size_bytes (pool : xv_pool) : Z :=
  to_u64 (total_size_bytes pool).

(** [disk_to_dev(disk)]: the address of the device embedded in the disk. *)
Definition disk_to_dev (d : gendisk) : device := disk_dev d.

(** [bdget_disk(disk, 0)]: the block device of the whole disk, or NULL. *)
Definition bdget_disk (d : gendisk) : option block_device := part0_bdev d.

(** [set_capacity(zram->disk, sectors)]. *)
Definition set_capacity (zram : zram_ptr) (sectors : Z) : M unit :=
  update zram (fun z => set_disk (with_capacity sectors (disk z)) z).

(** [pr_info(msg)]. *)
Definition pr_info (msg : string) : M unit := emit (EvPrInfo msg).

(** [WARN_ON(cond)]. *)
Definition WARN_ON (cond : bool) : M unit :=
  if cond then emit EvWarnOn else ret tt.

(** [fsync_bdev(bdev)]: a blocking flush of the block device of the disk
    whose device is [d]; the descriptor is not touched. *)
Definition fsync_bdev (d : device) : M unit := emit (EvFsyncBdev d).

(** Modelled from the spec: [zram_reset_device] (zram_drv.c is not part of
    the sources) "is responsible for freeing all compressed pages, zeroing the
    counter set, clearing initialized, and resetting capacity to zero". *)
Definition reset_descriptor (z : zram) : zram :=
  {| mem_pool := {| total_size_bytes := 0 |};
     disk := disk z;
     init_done := 0;
     disksize := 0;
     stats := map (fun s => {| count := fun _ => 0; syncp := syncp s |}) (stats z) |}.

Definition zram_reset_device (zram : zram_ptr) : M unit :=
  match zram with
  | Some i => emit (EvResetDevice i) ;;; update zram reset_descriptor
  | None => oops
  end.

(** ** zram_sysfs.c *)

(** The [do { ... } while (u64_stats_fetch_retry(...))] loop of
    [zram_get_stat] on one shard; [fuel] bounds the number of rounds. *)
Fixpoint fetch_count (fuel : nat) (stats : zram_stats_cpu)
    (idx : zram_stats_index) : option Z :=
  match fuel with
  | O => None
  | S fuel' =>
      let start := u64_stats_fetch_begin (syncp stats) in
      let temp := count stats idx in
      if u64_stats_fetch_retry (syncp stats) start
      then fetch_count fuel' stats idx
      else Some temp
  end.

(** The [for_each_possible_cpu] loop: [val += temp] on an [s64]. *)
Fixpoint sum_cpus (fuel : nat) (cpus : list zram_stats_cpu)
    (idx : zram_stats_index) (val : Z) : option Z :=
  match cpus with
  | [] => Some val
  | stats :: rest =>
      match fetch_count fuel stats idx with
      | Some temp => sum_cpus fuel rest idx (wrap_s64 (val + temp))
      | None => None
      end
  end.

Definition or_spin {A : Type} (o : option A) : M A :=
  match o with
  | Some a => ret a
  | None => fun _ => Spin
  end.

Definition zram_get_stat (fuel : nat) (zram : zram_ptr)
    (idx : zram_stats_index) : M Z :=
  z <- deref zram ;;
  val <- or_spin (sum_cpus fuel (stats z) idx 0) ;;
  WARN_ON (val <? 0) ;;;
  ret (to_u64 val).

(** The scan of [dev_to_zram]: [zram] is assigned before the comparison. *)
Fixpoint dev_to_zram_loop (devs : list zram) (i : nat) (zram : zram_ptr)
    (dev : device) : zram_ptr :=
  match devs with
  | [] => zram
  | z :: rest =>
      let zram := Some i in
      if disk_to_dev (disk z) =? dev
      then zram
      else dev_to_zram_loop rest (S i) zram dev
  end.

Definition dev_to_zram (dev : device) : M zram_ptr :=
  fun st => Ret (dev_to_zram_loop (zram_devices st) 0%nat None dev, st).

Section Sysfs.

(** [PAGE_SHIFT] of the target's [asm/page.h] and the width of
    [unsigned long]; neither is fixed by this file. *)
Variable PAGE_SHIFT : Z.
Variable BITS_PER_LONG : Z.

(** What [strict_strtoull] leaves in [*res] when it fails, as a function of
    its input and of the content [*res] had: lib/vsprintf.c is not part of
    the sources and nothing says whether the parser clears, keeps or
    overwrites its result on an error, so every behaviour is allowed for. *)
Variable failed_res : string -> Z -> Z.

Definition PAGE_SIZE : Z := Z.shiftl 1 PAGE_SHIFT.

(** Modelled from the spec: [PAGE_MASK] is [~(PAGE_SIZE - 1)] at the width of
    the capacity it is applied to ("rounds the parsed value down to the
    nearest page-size multiple"). *)
Definition PAGE_MASK : Z := to_u64 (Z.lnot (PAGE_SIZE - 1)).

(** Modelled from the spec: [strict_strtoull(cp, 10, res)] "parses the
    string as an unsigned 64-bit integer; fails on parse error": it returns
    [0] and stores the value in [*res], or returns [-EINVAL]
    ("InvalidArgument on parse failure") with [failed_res cp res] in [*res].
    The pair is the return code and the content of [*res] afterwards. *)
Definition strict_strtoull (cp : string) (res : Z) : Z * Z :=
  match parse_unsigned 64 cp with
  | Some v => (0, v)
  | None => (- EINVAL, failed_res cp res)
  end.

(** Modelled from the spec: [strict_strtoul], as [strict_strtoull] at the
    width of [unsigned long] ("parses the string as an unsigned integer
    flag; fails if parse fails"). *)
Definition strict_strtoul (cp : string) (res : Z) : Z * Z :=
  match parse_unsigned BITS_PER_LONG cp with
  | Some v => (0, v)
  | None => (- EINVAL, res)
  end.

Definition cannot_change_msg : string :=
  text_line "Cannot change disksize for initialized device".

Definition disksize_store (dev : device) (buf : string) (len : Z) : M Z :=
  zram <- dev_to_zram dev ;;
  z <- deref zram ;;
  if negb (init_done z =? 0) then
    pr_info cannot_change_msg ;;;
    ret (- EBUSY)
  else
    (* the parser writes through [&zram->disksize] *)
    let (r, v) := strict_strtoull buf (disksize z) in
    update zram (set_disksize v) ;;;
    if negb (r =? 0) then ret r
    else
      update zram (fun z => set_disksize (Z.land (disksize z) PAGE_MASK) z) ;;;
      z <- deref zram ;;
      set_capacity zram (Z.shiftr (disksize z) SECTOR_SHIFT) ;;;
      ret len.

(** Reading [bdev->bd_holders]. *)
Definition read_bd_holders (bdev : option block_device) : M Z :=
  match bdev with
  | Some b => ret (bd_holders b)
  | None => oops
  end.

Definition reset_store (dev : device) (buf : string) (len : Z) : M Z :=
  zram <- dev_to_zram dev ;;
  z <- deref zram ;;
  let bdev := bdget_disk (disk z) in
  (* Do not reset an active device! *)
  holders <- read_bd_holders bdev ;;
  if negb (holders =? 0) then ret (- EBUSY)
  else
    (* [do_reset] starts out unset; it is read only after a successful parse *)
    let (r, do_reset) := strict_strtoul buf 0 in
    if negb (r =? 0) then ret r
    else if do_reset =? 0 then ret (- EINVAL)
    else
      (* Make sure all pending I/O is finished *)
      (match bdev with
       | Some _ => fsync_bdev (disk_to_dev (disk z))
       | None => ret tt
       end) ;;;
      z <- deref zram ;;
      (if negb (init_done z =? 0) then zram_reset_device zram else ret tt) ;;;
      ret len.

Definition disksize_show (dev : device) : M (Z * string) :=
  zram <- dev_to_zram dev ;;
  z <- deref zram ;;
  ret (sprintf_llu (disksize z)).

Definition initstate_show (dev : device) : M (Z * string) :=
  zram <- dev_to_zram dev ;;
  z <- deref zram ;;
  ret (sprintf_u (init_done z)).

Definition num_reads_show (fuel : nat) (dev : device) : M (Z * string) :=
  zram <- dev_to_zram dev ;;
  v <- zram_get_stat fuel zram ZRAM_STAT_NUM_READS ;;
  ret (sprintf_llu v).

Definition num_writes_show (fuel : nat) (dev : device) : M (Z * string) :=
  zram <- dev_to_zram dev ;;
  v <- zram_get_stat fuel zram ZRAM_STAT_NUM_WRITES ;;
  ret (sprintf_llu v).

Definition invalid_io_show (fuel : nat) (dev : device) : M (Z * string) :=
  zram <- dev_to_zram dev ;;
  v <- zram_get_stat fuel zram ZRAM_STAT_INVALID_IO ;;
  ret (sprintf_llu v).

Definition notify_free_show (fuel : nat) (dev : device) : M (Z * string) :=
  zram <- dev_to_zram dev ;;
  v <- zram_get_stat fuel zram ZRAM_STAT_NOTIFY_FREE ;;
  ret (sprintf_llu v).

Definition discard_show (fuel : nat) (dev : device) : M (Z * string) :=
  zram <- dev_to_zram dev ;;
  v <- zram_get_stat fuel zram ZRAM_STAT_DISCARD ;;
  ret (sprintf_llu v).

Definition zero_pages_show (fuel : nat) (dev : device) : M (Z * string) :=
  zram <- dev_to_zram dev ;;
  v <- zram_get_stat fuel zram ZRAM_STAT_PAGES_ZERO ;;
  ret (sprintf_llu v).

Definition compr_data_size_show (fuel : nat) (dev : device) : M (Z * string) :=
  zram <- dev_to_zram dev ;;
  v <- zram_get_stat fuel zram ZRAM_STAT_COMPR_SIZE ;;
  ret (sprintf_llu v).

Definition orig_data_size_show (fuel : nat) (dev : device) : M (Z * string) :=
  zram <- dev_to_zram dev ;;
  v <- zram_get_stat fuel zram ZRAM_STAT_PAGES_STORED ;;
  ret (sprintf_llu (shl64 v PAGE_SHIFT)).

Definition mem_used_total_show (fuel : nat) (dev : device) : M (Z * string) :=
  let val := 0 in
  zram <- dev_to_zram dev ;;
  z <- deref zram ;;
  val <- (if negb (init_done z =? 0) then
            v <- zram_get_stat fuel zram ZRAM_STAT_PAGES_EXPAND ;;
            ret (add64 (xv_get_total_size_bytes (mem_pool z)) (shl64 v PAGE_SHIFT))
          else ret val) ;;
  ret (sprintf_llu val).

(** [struct device_attribute]: the name and mode of the attribute and its
    two handlers, [None] for a NULL one. A reader takes the retry budget of
    the per-CPU sum, which the readers that sum nothing ignore. *)
Record device_attribute : Type := mk_attr {
  attr_name : string;
  attr_mode : Z;
  show : option (nat -> device -> M (Z * string));
  store : option (device -> string -> Z -> M Z)
}.

(** [DEVICE_ATTR(name, mode, show, store)]. *)
Definition DEVICE_ATTR (name : string) (mode : Z)
    (sh : option (nat -> device -> M (Z * string)))
    (st : option (device -> string -> Z -> M Z)) : device_attribute :=
  {| attr_name := name; attr_mode := mode; show := sh; store := st |}.

Definition dev_attr_disksize : device_attribute :=
  DEVICE_ATTR "disksize" (Z.lor S_IRUGO S_IWUGO)
    (Some (fun _ => disksize_show)) (Some disksize_store).
Definition dev_attr_initstate : device_attribute :=
  DEVICE_ATTR "initstate" S_IRUGO (Some (fun _ => initstate_show)) None.
Definition dev_attr_reset : device_attribute :=
  DEVICE_ATTR "reset" S_IWUGO None (Some reset_store).
Definition dev_attr_num_reads : device_attribute :=
  DEVICE_ATTR "num_reads" S_IRUGO (Some num_reads_show) None.
Definition dev_attr_num_writes : device_attribute :=
  DEVICE_ATTR "num_writes" S_IRUGO (Some num_writes_show) None.
Definition dev_attr_invalid_io : device_attribute :=
  DEVICE_ATTR "invalid_io" S_IRUGO (Some invalid_io_show) None.
Definition dev_attr_notify_free : device_attribute :=
  DEVICE_ATTR "notify_free" S_IRUGO (Some notify_free_show) None.
Definition dev_attr_discard : device_attribute :=
  DEVICE_ATTR "discard" S_IRUGO (Some discard_show) None.
Definition dev_attr_zero_pages : device_attribute :=
  DEVICE_ATTR "zero_pages" S_IRUGO (Some zero_pages_show) None.
Definition dev_attr_orig_data_size : device_attribute :=
  DEVICE_ATTR "orig_data_size" S_IRUGO (Some orig_data_size_show) None.
Definition dev_attr_compr_data_size : device_attribute :=
  DEVICE_ATTR "compr_data_size" S_IRUGO (Some compr_data_size_show) None.
Definition dev_attr_mem_used_total : device_attribute :=
  DEVICE_ATTR "mem_used_total" S_IRUGO (Some mem_used_total_show) None.

(** [zram_disk_attrs], without its NULL terminator. *)
Definition zram_disk_attrs : list device_attribute :=
  [ dev_attr_disksize; dev_attr_initstate; dev_attr_reset;
    dev_attr_num_reads; dev_attr_num_writes; dev_attr_invalid_io;
    dev_attr_notify_free; dev_attr_discard; dev_attr_zero_pages;
    dev_attr_orig_data_size; dev_attr_compr_data_size;
    dev_attr_mem_used_total ].

(** ** Reference notions used by the statements *)

(** The common shape of the seven plain counter readers. *)
Definition stat_show (idx : zram_stats_index) (fuel : nat) (dev : device)
    : M (Z * string) :=
  zram <- dev_to_zram dev ;;
  v <- zram_get_stat fuel zram idx ;;
  ret (sprintf_llu v).

(** What [disksize_store] leaves in the descriptor, mask and shift as the
    code applies them. *)
Definition written (n : Z) (z : zram) : zram :=
  set_disk (with_capacity (Z.shiftr (Z.land n PAGE_MASK) SECTOR_SHIFT) (disk z))
           (set_disksize (Z.land n PAGE_MASK) z).

(** The fields of a descriptor a capacity write has no business with. *)
Definition same_identity (z z' : zram) : Prop :=
  init_done z' = init_done z /\ stats z' = stats z /\ mem_pool z' = mem_pool z /\
  disk_dev (disk z') = disk_dev (disk z) /\
  part0_bdev (disk z') = part0_bdev (disk z).

(** What it means for a reader to leave the device alone. *)
Definition read_only_at (st : kstate) (r : result (Z * string * kstate)) : Prop :=
  exists out st',
    r = Ret (out, st') /\
    zram_devices st' = zram_devices st /\
    (trace st' = trace st \/ trace st' = EvWarnOn :: trace st) /\
    fst out = Z.of_nat (String.length (snd out)).

(** The exact integer total of the shards of one statistic. *)
Definition shard_total (z : zram) (idx : zram_stats_index) : Z :=
  fold_right Z.add 0 (map (fun s => count s idx) (stats z)).

(** The content of the [s64] accumulator after the last CPU. *)
Definition signed_total (z : zram) (idx : zram_stats_index) : Z :=
  wrap_s64 (shard_total z idx).

(** The handle [dev] is resolved to [zram_devices[i]], which holds [z]. *)
Definition resolves (st : kstate) (dev : device) (i : nat) (z : zram) : Prop :=
  dev_to_zram_loop (zram_devices st) 0%nat None dev = Some i /\
  zram_devices st !! i = Some z.

Definition with_devices (devs : list zram) (st : kstate) : kstate :=
  {| zram_devices := devs; trace := trace st |}.

Definition with_event (e : event) (st : kstate) : kstate :=
  {| zram_devices := zram_devices st; trace := e :: trace st |}.

(** The state after [WARN_ON(val < 0)]. *)
Definition warned (val : Z) (st : kstate) : kstate :=
  if val <? 0 then with_event EvWarnOn st else st.

(** The descriptor after a capacity write of [n] took full effect. *)
Definition resized (n : Z) (z : zram) : zram :=
  let cap := PAGE_SIZE * (n / PAGE_SIZE) in
  set_disk (with_capacity (cap / 2 ^ SECTOR_SHIFT) (disk z)) (set_disksize cap z).

(** The descriptor after a capacity write whose payload did not parse: the
    parser was handed [&zram->disksize]. *)
Definition unparsed (buf : string) (z : zram) : zram :=
  set_disksize (failed_res buf (disksize z)) z.

(** [reset_store] as it would read without its [if (bdev)] test: the flush is
    issued whenever control gets that far. *)
Definition reset_store_unguarded (dev : device) (buf : string) (len : Z) : M Z :=
  zram <- dev_to_zram dev ;;
  z <- deref zram ;;
  let bdev := bdget_disk (disk z) in
  holders <- read_bd_holders bdev ;;
  if negb (holders =? 0) then ret (- EBUSY)
  else
    let (r, do_reset) := strict_strtoul buf 0 in
    if negb (r =? 0) then ret r
    else if do_reset =? 0 then ret (- EINVAL)
    else
      fsync_bdev (disk_to_dev (disk z)) ;;;
      z <- deref zram ;;
      (if negb (init_done z =? 0) then zram_reset_device zram else ret tt) ;;;
      ret len.

(** ** A sample table of four devices *)

Definition cpu0 : zram_stats_cpu :=
  {| count := fun idx =>
       match idx with
       | ZRAM_STAT_PAGES_STORED => 5
       | ZRAM_STAT_PAGES_EXPAND => 3
       | ZRAM_STAT_NOTIFY_FREE => 1
       | _ => 0
       end;
     syncp := 6 |}.

Definition cpu1 : zram_stats_cpu :=
  {| count := fun idx =>
       match idx with
       | ZRAM_STAT_PAGES_STORED => -2
       | ZRAM_STAT_PAGES_EXPAND => -1
       | ZRAM_STAT_NOTIFY_FREE => -3
       | _ => 0
       end;
     syncp := 10 |}.

(** Not initialized, nobody holds it. *)
Definition zram_fresh : zram :=
  {| mem_pool := {| total_size_bytes := 0 |};
     disk := {| disk_dev := 100; capacity := 0;
                part0_bdev := Some {| bd_holders := 0 |} |};
     init_done := 0; disksize := 0; stats := [cpu0; cpu1] |}.

(** Initialized and held open twice. *)
Definition zram_open : zram :=
  {| mem_pool := {| total_size_bytes := 12288 |};
     disk := {| disk_dev := 101; capacity := 16;
                part0_bdev := Some {| bd_holders := 2 |} |};
     init_done := 1; disksize := 8192; stats := [cpu0; cpu1] |}.

(** Its block device cannot be looked up. *)
Definition zram_nobdev : zram :=
  {| mem_pool := {| total_size_bytes := 0 |};
     disk := {| disk_dev := 102; capacity := 0; part0_bdev := None |};
     init_done := 0; disksize := 0; stats := [cpu0; cpu1] |}.

(** Initialized, nobody holds it. *)
Definition zram_idle : zram :=
  {| mem_pool := {| total_size_bytes := 12288 |};
     disk := {| disk_dev := 103; capacity := 16;
                part0_bdev := Some {| bd_holders := 0 |} |};
     init_done := 1; disksize := 8192; stats := [cpu0; cpu1] |}.

Definition st_demo : kstate :=
  {| zram_devices := [zram_fresh; zram_open; zram_nobdev; zram_idle];
     trace := [] |}.

(** The table after a capacity write of [8192] to the first device, and
    after one of [4096]. *)
Definition st_after_8192 : kstate :=
  with_devices
    (<[0%nat := set_disk (with_capacity 16 (disk zram_fresh)) (set_disksize 8192 zram_fresh)]>
       (zram_devices st_demo))
    st_demo.

Definition st_after_4096 : kstate :=
  with_devices
    (<[0%nat := set_disk (with_capacity 8 (disk zram_fresh)) (set_disksize 4096 zram_fresh)]>
       (zram_devices st_demo))
    st_demo.

(** A parser that stores 0 in its result before it reads its input. *)
Definition res_cleared (cp : string) (res : Z) : Z := 0.

(** The table after a capacity write of [8192] to the first device followed
    by a failed parse through [res_cleared]: [disksize] is 0, the disk still
    has 16 sectors. *)
Definition st_after_failed_parse : kstate :=
  with_devices
    (<[0%nat := set_disk (with_capacity 16 (disk zram_fresh)) (set_disksize 0 zram_fresh)]>
       (zram_devices st_demo))
    st_demo.

(** No device at all. *)
Definition st_empty : kstate := {| zram_devices := []; trace := [] |}.

(** A device that served seven reads, counted as 9 on one CPU and -2 on the
    other; the same device with the two shards swapped; and the same device
    after one more read was counted on the second CPU. *)
Definition cpu_reads (reads : Z) (sync : Z) : zram_stats_cpu :=
  {| count := fun idx =>
       match idx with
       | ZRAM_STAT_NUM_READS => reads
       | _ => 0
       end;
     syncp := sync |}.

Definition zram_reads (shards : list zram_stats_cpu) : zram :=
  {| mem_pool := {| total_size_bytes := 4096 |};
     disk := {| disk_dev := 200; capacity := 8;
                part0_bdev := Some {| bd_holders := 1 |} |};
     init_done := 1; disksize := 4096; stats := shards |}.

Definition st_reads : kstate :=
  {| zram_devices := [zram_reads [cpu_reads 9 2; cpu_reads (-2) 8]]; trace := [] |}.

Definition st_reads_swapped : kstate :=
  {| zram_devices := [zram_reads [cpu_reads (-2) 4; cpu_reads 9 6]]; trace := [] |}.

Definition st_reads_more : kstate :=
  {| zram_devices := [zram_reads [cpu_reads 9 2; cpu_reads (-1) 10]]; trace := [] |}.

(** ** Auxiliary facts *)

(** *** Machine integers *)

Lemma modulus_pos : 0 < modulus.
Proof. reflexivity. Qed.

Lemma to_u64_range z : 0 <= to_u64 z < modulus.
Proof. apply Z.mod_pos_bound, modulus_pos. Qed.

Lemma to_u64_small z : 0 <= z < modulus -> to_u64 z = z.
Proof. apply Z.mod_small. Qed.

Lemma wrap_s64_range z : min_s64 <= wrap_s64 z <= max_s64.
Proof.
  unfold wrap_s64, min_s64, max_s64.
  pose proof (Z.mod_pos_bound (z + 2 ^ 63) modulus modulus_pos) as Hb.
  unfold modulus in *. lia.
Qed.

Lemma wrap_s64_small z : min_s64 <= z <= max_s64 -> wrap_s64 z = z.
Proof.
  unfold wrap_s64, min_s64, max_s64, modulus. intros Hz.
  rewrite Z.mod_small; lia.
Qed.

(** Storing into an [s64] changes the value by a multiple of [2^64] only. *)
Lemma wrap_s64_cong z : to_u64 (wrap_s64 z) = to_u64 z.
Proof.
  unfold to_u64, wrap_s64.
  rewrite Zminus_mod, Z.mod_mod by (unfold modulus; lia).
  rewrite <- Zminus_mod. f_equal. lia.
Qed.

Lemma wrap_s64_add_l a b : wrap_s64 (wrap_s64 a + b) = wrap_s64 (a + b).
Proof.
  unfold wrap_s64 at 1 3. f_equal.
  replace (wrap_s64 a + b + 2 ^ 63) with (wrap_s64 a + (b + 2 ^ 63)) by lia.
  replace (a + b + 2 ^ 63) with (a + (b + 2 ^ 63)) by lia.
  rewrite (Zplus_mod (wrap_s64 a)), (Zplus_mod a).
  f_equal. f_equal. apply wrap_s64_cong.
Qed.

(** Reinterpreting a negative [s64] as [u64] adds [2^64]. *)
Lemma to_u64_negative z : min_s64 <= z < 0 -> to_u64 z = z + modulus.
Proof.
  unfold to_u64, min_s64, modulus. intros Hz.
  rewrite <- (Z.mod_add z 1) by lia. rewrite Z.mod_small; lia.
Qed.

(** *** Computations *)

Lemma bind_ret_l {A B : Type} (a : A) (k : A -> M B) st :
  bind (ret a) k st = k a st.
Proof. reflexivity. Qed.

Lemma deref_some i z st :
  zram_devices st !! i = Some z -> deref (Some i) st = Ret (z, st).
Proof. intros H. unfold deref. now rewrite H. Qed.

Lemma with_devices_same st : with_devices (zram_devices st) st = st.
Proof. now destruct st. Qed.

Lemma update_some i z f st :
  zram_devices st !! i = Some z ->
  update (Some i) f st = Ret (tt, with_devices (<[i := f z]> (zram_devices st)) st).
Proof. intros H. unfold update. now rewrite H. Qed.

Lemma lookup_updated (devs : list zram) i z z' :
  devs !! i = Some z -> <[i := z']> devs !! i = Some z'.
Proof. intros H. apply list_lookup_insert_eq. now apply lookup_lt_Some in H. Qed.

(** *** The decimal parser *)

Lemma digit_val_range c d : digit_val c = Some d -> 0 <= d <= 9.
Proof.
  unfold digit_val. destruct (_ && _) eqn:E; [|discriminate].
  intros [= <-]. apply andb_true_iff in E as [E1 E2]. lia.
Qed.

Lemma parse_digits_nonneg s : forall acc v,
  0 <= acc -> parse_digits s acc = Some v -> 0 <= v.
Proof.
  induction s as [|c s IH]; simpl; intros acc v Hacc.
  - intros [= <-]. exact Hacc.
  - destruct (digit_val c) as [d|] eqn:Ed; [|discriminate].
    apply digit_val_range in Ed. apply IH. lia.
Qed.

Lemma parse_unsigned_range bits s v :
  parse_unsigned bits s = Some v -> 0 <= v < 2 ^ bits.
Proof.
  unfold parse_unsigned. destruct s as [|c s]; [discriminate|].
  destruct (parse_digits (String c s) 0) as [w|] eqn:Ew; [|discriminate].
  destruct (w <? 2 ^ bits) eqn:Eb; [|discriminate].
  intros [= <-]. apply parse_digits_nonneg in Ew; lia.
Qed.

Lemma strict_strtoull_ok buf old n :
  parse_unsigned 64 buf = Some n -> strict_strtoull buf old = (0, n).
Proof. intros H. unfold strict_strtoull. now rewrite H. Qed.

Lemma strict_strtoull_fail buf old :
  parse_unsigned 64 buf = None ->
  strict_strtoull buf old = (- EINVAL, failed_res buf old).
Proof. intros H. unfold strict_strtoull. now rewrite H. Qed.

(** *** Decimal text *)

Lemma digit_val_char d : 0 <= d <= 9 -> digit_val (digit_char d) = Some d.
Proof.
  intros Hd.
  assert (H : d = 0 \/ d = 1 \/ d = 2 \/ d = 3 \/ d = 4 \/ d = 5 \/ d = 6 \/
              d = 7 \/ d = 8 \/ d = 9) by lia.
  repeat (destruct H as [->|H]; [reflexivity|]). now subst.
Qed.

Lemma put_dec_append_gen fuel : forall v pre acc,
  put_dec fuel v (String.append pre acc) = String.append (put_dec fuel v pre) acc.
Proof.
  induction fuel as [|fuel IH]; intros v pre acc; [reflexivity|].
  cbn [put_dec]. destruct (v / 10 =? 0); [reflexivity|].
  apply (IH _ (String _ pre)).
Qed.

Lemma put_dec_append fuel v acc :
  put_dec fuel v acc = String.append (put_dec fuel v EmptyString) acc.
Proof. apply (put_dec_append_gen fuel v EmptyString). Qed.

Lemma parse_digits_append s : forall t acc,
  parse_digits (String.append s t) acc =
    match parse_digits s acc with
    | Some x => parse_digits t x
    | None => None
    end.
Proof.
  induction s as [|c s IH]; intros t acc; [reflexivity|].
  cbn [String.append parse_digits]. destruct (digit_val c); [apply IH|reflexivity].
Qed.

Lemma put_dec_nonempty fuel v acc :
  put_dec (S fuel) v acc <> EmptyString.
Proof.
  revert v acc. induction fuel as [|fuel IH]; intros v acc; cbn [put_dec].
  - destruct (v / 10 =? 0); discriminate.
  - destruct (v / 10 =? 0); [discriminate|]. apply IH.
Qed.

Lemma parse_put_dec fuel : forall v,
  0 <= v < 10 ^ Z.of_nat (S fuel) ->
  parse_digits (put_dec (S fuel) v EmptyString) 0 = Some v.
Proof.
  induction fuel as [|fuel IH]; intros v Hv.
  - cbn [put_dec]. change (10 ^ Z.of_nat 1) with 10 in Hv.
    rewrite Z.div_small, Z.mod_small by lia. cbn [Z.eqb parse_digits].
    now rewrite digit_val_char by lia.
  - change (put_dec (S (S fuel)) v EmptyString)
      with (if v / 10 =? 0 then String (digit_char (v mod 10)) EmptyString
            else put_dec (S fuel) (v / 10) (String (digit_char (v mod 10)) EmptyString)).
    destruct (Z.eqb_spec (v / 10) 0) as [E|E].
    + cbn [parse_digits].
      rewrite digit_val_char by (pose proof (Z.mod_pos_bound v 10); lia).
      f_equal. pose proof (Z.div_mod v 10). lia.
    + rewrite put_dec_append, parse_digits_append.
      rewrite IH.
      * cbn [parse_digits].
        rewrite digit_val_char by (pose proof (Z.mod_pos_bound v 10); lia).
        f_equal. pose proof (Z.div_mod v 10). lia.
      * split; [apply Z.div_pos; lia|].
        apply Z.div_lt_upper_bound; [lia|].
        rewrite Nat2Z.inj_succ, Z.pow_succ_r in Hv by lia. lia.
Qed.

(** The text [sprintf_llu] writes for a [u64] is its decimal numeral and a
    newline: parsing the numeral gives the number back. *)
Lemma sprintf_llu_parse v :
  0 <= v < 2 ^ 64 ->
  exists digits,
    snd (sprintf_llu v) = text_line digits /\ parse_unsigned 64 digits = Some v.
Proof.
  intros Hv. exists (put_dec 20 v EmptyString). split.
  - unfold sprintf_llu, text_line. cbn [snd]. apply put_dec_append.
  - unfold parse_unsigned.
    destruct (put_dec 20 v EmptyString) eqn:E; [now apply put_dec_nonempty in E|].
    rewrite <- E, parse_put_dec
      by (change (10 ^ Z.of_nat 20) with 100000000000000000000; lia).
    destruct (Z.ltb_spec v (2 ^ 64)); [reflexivity|lia].
Qed.

(** *** Page rounding *)

(** Masking a [u64] with [PAGE_MASK] rounds it down to a page multiple. *)
Lemma land_PAGE_MASK n :
  0 <= PAGE_SHIFT < 64 -> 0 <= n < 2 ^ 64 ->
  Z.land n PAGE_MASK = PAGE_SIZE * (n / PAGE_SIZE).
Proof.
  intros Hk Hn. unfold PAGE_MASK, PAGE_SIZE, to_u64, modulus.
  rewrite Z.shiftl_1_l.
  replace (2 ^ PAGE_SHIFT - 1) with (Z.ones PAGE_SHIFT)
    by (rewrite Z.ones_equiv; lia).
  rewrite <- Z.land_ones by lia.
  rewrite (Z.land_comm (Z.lnot _)), Z.land_assoc.
  rewrite (Z.land_ones n 64), (Z.mod_small n) by lia.
  rewrite <- Z.ldiff_land, Z.ldiff_ones_r by lia.
  rewrite Z.shiftl_mul_pow2, Z.shiftr_div_pow2 by lia.
  apply Z.mul_comm.
Qed.

Lemma PAGE_SIZE_pos : 0 <= PAGE_SHIFT -> 0 < PAGE_SIZE.
Proof.
  intros H. unfold PAGE_SIZE. rewrite Z.shiftl_1_l. now apply Z.pow_pos_nonneg.
Qed.

(** *** The per-CPU sum *)

Lemma fetch_count_quiescent fuel s idx :
  fetch_count (S fuel) s idx = Some (count s idx).
Proof.
  simpl. unfold u64_stats_fetch_retry, u64_stats_fetch_begin.
  now rewrite Z.eqb_refl.
Qed.

Lemma sum_cpus_total fuel idx cpus : forall val,
  wrap_s64 val = val ->
  sum_cpus (S fuel) cpus idx val =
    Some (wrap_s64 (val + fold_right Z.add 0 (map (fun s => count s idx) cpus))).
Proof.
  induction cpus as [|s cpus IH]; intros val Hval.
  - simpl. now rewrite Z.add_0_r, Hval.
  - cbn [sum_cpus]. rewrite fetch_count_quiescent.
    rewrite IH by apply wrap_s64_small, wrap_s64_range.
    rewrite wrap_s64_add_l. simpl. f_equal. f_equal. lia.
Qed.

Lemma zram_get_stat_run fuel i z idx st :
  zram_devices st !! i = Some z ->
  zram_get_stat (S fuel) (Some i) idx st =
    Ret (to_u64 (signed_total z idx), warned (signed_total z idx) st).
Proof.
  intros Hz. unfold zram_get_stat, bind. rewrite (deref_some _ _ _ Hz).
  rewrite sum_cpus_total by reflexivity. simpl.
  unfold signed_total, shard_total, warned, WARN_ON.
  destruct (wrap_s64 _ <? 0); reflexivity.
Qed.

(** *** The registry scan *)

Lemma dev_to_zram_loop_no_match dev devs : forall i p,
  Forall (fun z => disk_to_dev (disk z) <> dev) devs ->
  dev_to_zram_loop devs i p dev =
    match devs with
    | [] => p
    | _ :: _ => Some (i + length devs - 1)%nat
    end.
Proof.
  induction devs as [|z devs IH]; intros i p Hall; [reflexivity|].
  inversion Hall as [|? ? Hz Hrest]; subst. cbn [dev_to_zram_loop].
  destruct (Z.eqb_spec (disk_to_dev (disk z)) dev) as [E|_]; [contradiction|].
  rewrite IH by assumption. destruct devs; simpl; f_equal; lia.
Qed.

Lemma dev_to_zram_loop_first dev devs : forall i p k z,
  devs !! k = Some z ->
  disk_to_dev (disk z) = dev ->
  (forall j z', (j < k)%nat -> devs !! j = Some z' -> disk_to_dev (disk z') <> dev) ->
  dev_to_zram_loop devs i p dev = Some (i + k)%nat.
Proof.
  induction devs as [|z0 devs IH]; intros i p k z Hk Hz Hbefore; [discriminate|].
  cbn [dev_to_zram_loop]. destruct k as [|k].
  - injection Hk as ->. rewrite Hz, Z.eqb_refl. f_equal. lia.
  - destruct (Z.eqb_spec (disk_to_dev (disk z0)) dev) as [E|_].
    + exfalso. apply (Hbefore 0%nat z0); [lia|reflexivity|exact E].
    + rewrite (IH (S i) (Some i) k z Hk Hz); [f_equal; lia|].
      intros j z' Hj Hl. apply (Hbefore (S j) z'); [lia|exact Hl].
Qed.

Lemma dev_to_zram_loop_bound dev devs : forall i p j,
  dev_to_zram_loop devs i p dev = Some j ->
  p = Some j \/ (i <= j < i + length devs)%nat.
Proof.
  induction devs as [|z devs IH]; intros i p j; cbn [dev_to_zram_loop length].
  - now left.
  - destruct (disk_to_dev (disk z) =? dev).
    + intros [= <-]. right. lia.
    + intros H. apply IH in H as [[= <-]|H]; right; lia.
Qed.

(** Rewriting a descriptor in place keeps every handle where it was. *)
Lemma dev_to_zram_loop_insert dev z' : forall devs k z i p,
  devs !! k = Some z ->
  disk_to_dev (disk z') = disk_to_dev (disk z) ->
  dev_to_zram_loop (<[k := z']> devs) i p dev = dev_to_zram_loop devs i p dev.
Proof.
  induction devs as [|z0 devs IH]; intros k z i p Hk Hd; [reflexivity|].
  destruct k as [|k]; cbn [dev_to_zram_loop].
  - injection Hk as ->. simpl. now rewrite Hd.
  - simpl. destruct (disk_to_dev (disk z0) =? dev); [reflexivity|].
    now apply (IH k z).
Qed.

Lemma resolves_updated st dev i z z' :
  resolves st dev i z ->
  disk_to_dev (disk z') = disk_to_dev (disk z) ->
  resolves (with_devices (<[i := z']> (zram_devices st)) st) dev i z'.
Proof.
  intros [Hres Hz] Hd. split; simpl.
  - now rewrite (dev_to_zram_loop_insert dev z' _ i z).
  - now apply lookup_updated with z.
Qed.

(** Whatever the scan returns for a handle is a slot of the table. *)
Lemma resolves_total st dev i :
  dev_to_zram_loop (zram_devices st) 0%nat None dev = Some i ->
  exists z, resolves st dev i z.
Proof.
  intros Hloop. destruct (dev_to_zram_loop_bound _ _ _ _ _ Hloop) as [[=]|Hi].
  destruct (lookup_lt_is_Some_2 (zram_devices st) i) as [z Hz]; [lia|].
  exists z. now split.
Qed.

(** A device whose handle no earlier descriptor shares resolves to itself. *)
Lemma resolves_own_handle st i z :
  zram_devices st !! i = Some z ->
  (forall j z', (j < i)%nat -> zram_devices st !! j = Some z' ->
                disk_to_dev (disk z') <> disk_to_dev (disk z)) ->
  resolves st (disk_to_dev (disk z)) i z.
Proof.
  intros Hz Hb. split; [|exact Hz].
  now rewrite (dev_to_zram_loop_first _ _ 0%nat None i z Hz eq_refl Hb).
Qed.

Ltac enter Hres :=
  let Hloop := fresh "Hloop" in
  let Hz := fresh "Hz" in
  destruct Hres as [Hloop Hz];
  unfold bind at 1 2, dev_to_zram; rewrite Hloop, (deref_some _ _ _ Hz).

(** *** The two writers, run from a state in which the handle resolves *)

Lemma reset_store_run st dev i z buf len :
  resolves st dev i z ->
  reset_store dev buf len st =
    match bdget_disk (disk z) with
    | None => Oops
    | Some b =>
        if bd_holders b =? 0 then
          match parse_unsigned BITS_PER_LONG buf with
          | None => Ret (- EINVAL, st)
          | Some n =>
              if n =? 0 then Ret (- EINVAL, st)
              else
                let flushed := with_event (EvFsyncBdev (disk_to_dev (disk z))) st in
                if init_done z =? 0 then Ret (len, flushed)
                else Ret (len, with_devices (<[i := reset_descriptor z]> (zram_devices st))
                                 (with_event (EvResetDevice i) flushed))
          end
        else Ret (- EBUSY, st)
    end.
Proof.
  intros Hres.
  assert (Hz' : zram_devices st !! i = Some z) by apply Hres.
  unfold reset_store. enter Hres.
  destruct (bdget_disk (disk z)) as [b|]; [|reflexivity].
  unfold bind at 1. unfold read_bd_holders, ret at 1.
  destruct (bd_holders b =? 0); [|reflexivity]. cbn [negb].
  unfold strict_strtoul.
  destruct (parse_unsigned BITS_PER_LONG buf) as [n|]; [|reflexivity].
  change (0 =? 0) with true. cbn [negb].
  destruct (n =? 0); [reflexivity|].
  unfold bind at 1, fsync_bdev, emit.
  unfold bind at 1, deref. cbn [zram_devices]. rewrite Hz'.
  destruct (init_done z =? 0); [reflexivity|].
  cbn [negb]. unfold bind, zram_reset_device, emit, update, bind.
  cbn [zram_devices trace]. rewrite Hz'. reflexivity.
Qed.

Lemma set_disksize_same z : set_disksize (disksize z) z = z.
Proof. now destruct z. Qed.

Lemma disksize_store_run st dev i z buf len :
  0 <= PAGE_SHIFT < 64 ->
  resolves st dev i z ->
  disksize_store dev buf len st =
    if init_done z =? 0 then
      match parse_unsigned 64 buf with
      | None =>
          Ret (- EINVAL, with_devices (<[i := unparsed buf z]> (zram_devices st)) st)
      | Some n =>
          Ret (len, with_devices (<[i := resized n z]> (zram_devices st)) st)
      end
    else Ret (- EBUSY, with_event (EvPrInfo cannot_change_msg) st).
Proof.
  intros Hshift Hres.
  assert (Hz' : zram_devices st !! i = Some z) by apply Hres.
  unfold disksize_store. enter Hres.
  destruct (init_done z =? 0); [|reflexivity]. cbn [negb].
  destruct (parse_unsigned 64 buf) as [n|] eqn:Hparse.
  - rewrite (strict_strtoull_ok _ _ _ Hparse).
    unfold bind at 1. rewrite (update_some _ _ _ _ Hz').
    change (0 =? 0) with true. cbn [negb].
    unfold bind at 1.
    rewrite (update_some i (set_disksize n z))
      by (cbn [zram_devices with_devices]; now apply lookup_updated with z).
    cbn [zram_devices with_devices trace]. rewrite list_insert_insert_eq.
    unfold bind at 1.
    erewrite deref_some
      by (cbn [zram_devices with_devices]; now apply lookup_updated with z).
    unfold bind at 1, set_capacity.
    erewrite update_some
      by (cbn [zram_devices with_devices]; now apply lookup_updated with z).
    cbn [zram_devices with_devices trace]. rewrite list_insert_insert_eq.
    unfold ret, with_devices. cbn [trace]. do 4 f_equal.
    unfold resized, set_disk, set_disksize. cbn.
    apply parse_unsigned_range in Hparse.
    rewrite land_PAGE_MASK by assumption.
    rewrite Z.shiftr_div_pow2 by (unfold SECTOR_SHIFT; lia).
    reflexivity.
  - rewrite (strict_strtoull_fail _ _ Hparse).
    unfold bind at 1. rewrite (update_some _ _ _ _ Hz'). reflexivity.
Qed.

Lemma disksize_store_run_raw st dev i z buf len :
  resolves st dev i z ->
  disksize_store dev buf len st =
    if init_done z =? 0 then
      match parse_unsigned 64 buf with
      | None =>
          Ret (- EINVAL, with_devices (<[i := unparsed buf z]> (zram_devices st)) st)
      | Some n =>
          Ret (len, with_devices (<[i := written n z]> (zram_devices st)) st)
      end
    else Ret (- EBUSY, with_event (EvPrInfo cannot_change_msg) st).
Proof.
  intros Hres.
  assert (Hz' : zram_devices st !! i = Some z) by apply Hres.
  unfold disksize_store. enter Hres.
  destruct (init_done z =? 0); [|reflexivity]. cbn [negb].
  destruct (parse_unsigned 64 buf) as [n|] eqn:Hparse.
  - rewrite (strict_strtoull_ok _ _ _ Hparse).
    unfold bind at 1. rewrite (update_some _ _ _ _ Hz').
    change (0 =? 0) with true. cbn [negb].
    unfold bind at 1.
    rewrite (update_some i (set_disksize n z))
      by (cbn [zram_devices with_devices]; now apply lookup_updated with z).
    cbn [zram_devices with_devices trace]. rewrite list_insert_insert_eq.
    unfold bind at 1.
    erewrite deref_some
      by (cbn [zram_devices with_devices]; now apply lookup_updated with z).
    unfold bind at 1, set_capacity.
    erewrite update_some
      by (cbn [zram_devices with_devices]; now apply lookup_updated with z).
    cbn [zram_devices with_devices trace]. rewrite list_insert_insert_eq.
    reflexivity.
  - rewrite (strict_strtoull_fail _ _ Hparse).
    unfold bind at 1. rewrite (update_some _ _ _ _ Hz'). reflexivity.
Qed.

(** *** The derived readers *)

Lemma orig_data_size_show_run fuel st dev i z :
  resolves st dev i z ->
  orig_data_size_show (S fuel) dev st =
    Ret (sprintf_llu (shl64 (to_u64 (signed_total z ZRAM_STAT_PAGES_STORED)) PAGE_SHIFT),
         warned (signed_total z ZRAM_STAT_PAGES_STORED) st).
Proof.
  intros [Hloop Hz]. unfold orig_data_size_show, bind at 1, dev_to_zram.
  rewrite Hloop. unfold bind at 1. now rewrite (zram_get_stat_run _ _ _ _ _ Hz).
Qed.

Lemma mem_used_total_show_run fuel st dev i z :
  resolves st dev i z ->
  mem_used_total_show (S fuel) dev st =
    if init_done z =? 0 then Ret (sprintf_llu 0, st)
    else
      Ret (sprintf_llu
             (add64 (xv_get_total_size_bytes (mem_pool z))
                    (shl64 (to_u64 (signed_total z ZRAM_STAT_PAGES_EXPAND)) PAGE_SHIFT)),
           warned (signed_total z ZRAM_STAT_PAGES_EXPAND) st).
Proof.
  intros Hres. assert (Hz' : zram_devices st !! i = Some z) by apply Hres.
  unfold mem_used_total_show. enter Hres.
  destruct (init_done z =? 0); [reflexivity|]. cbn [negb].
  unfold bind at 1 2. now rewrite (zram_get_stat_run _ _ _ _ _ Hz').
Qed.

Lemma to_u64_signed_total z idx :
  to_u64 (signed_total z idx) = to_u64 (shard_total z idx).
Proof. apply wrap_s64_cong. Qed.

Lemma shl64_exact a k :
  0 <= k -> 0 <= a -> Z.shiftl a k < 2 ^ 64 -> shl64 (to_u64 a) k = Z.shiftl a k.
Proof.
  intros Hk Ha Hlt. unfold shl64.
  assert (Hpow : 0 < 2 ^ k) by now apply Z.pow_pos_nonneg.
  rewrite Z.shiftl_mul_pow2 in Hlt by assumption.
  rewrite (to_u64_small a) by (unfold modulus; nia).
  apply to_u64_small. rewrite Z.shiftl_mul_pow2 by assumption.
  unfold modulus. nia.
Qed.

Lemma resized_resized n1 n2 z : resized n2 (resized n1 z) = resized n2 z.
Proof. reflexivity. Qed.

Lemma bind_ext {A B : Type} (c : M A) (k k' : A -> M B) st :
  (forall a s, k a s = k' a s) -> bind c k st = bind c k' st.
Proof. intros H. unfold bind. destruct (c st) as [[a s]| |]; auto. Qed.

Lemma reset_store_guard_dead dev buf len st :
  reset_store dev buf len st = reset_store_unguarded dev buf len st.
Proof.
  unfold reset_store, reset_store_unguarded.
  apply bind_ext. intros p s. apply bind_ext. intros z s'.
  destruct (bdget_disk (disk z)); reflexivity.
Qed.

(** ** The claims *)

(** C1. For every statistic kind, [zram_get_stat] on a device returns: it
    yields the [s64] accumulator over all CPU shards converted to [u64].
    That value is the exact shard total modulo [2^64], and the accumulator
    is the exact total itself whenever the total fits an [s64]. A negative
    accumulator raises the [WARN_ON] diagnostic and is still returned,
    reinterpreted as unsigned (the accumulator plus [2^64]), neither clamped
    nor turned into a failure; a nonnegative one is returned as it is and
    raises nothing. *)
Theorem zram_get_stat_exact_total fuel st i z idx :
  zram_devices st !! i = Some z ->
  zram_get_stat (S fuel) (Some i) idx st =
    Ret (to_u64 (signed_total z idx), warned (signed_total z idx) st) /\
  to_u64 (signed_total z idx) = shard_total z idx mod 2 ^ 64 /\
  (min_s64 <= shard_total z idx <= max_s64 ->
     signed_total z idx = shard_total z idx) /\
  (signed_total z idx < 0 ->
     warned (signed_total z idx) st = with_event EvWarnOn st /\
     to_u64 (signed_total z idx) = signed_total z idx + 2 ^ 64) /\
  (0 <= signed_total z idx ->
     warned (signed_total z idx) st = st /\
     to_u64 (signed_total z idx) = signed_total z idx).
Proof.
  intros Hz. pose proof (wrap_s64_range (shard_total z idx)) as Hr.
  fold (signed_total z idx) in Hr.
  split; [now apply zram_get_stat_run|].
  split; [apply to_u64_signed_total|].
  split; [apply wrap_s64_small|].
  split; intros Hs; unfold warned.
  - destruct (Z.ltb_spec (signed_total z idx) 0) as [_|?]; [|lia].
    split; [reflexivity|]. apply to_u64_negative. lia.
  - destruct (Z.ltb_spec (signed_total z idx) 0) as [?|_]; [lia|].
    split; [reflexivity|]. apply to_u64_small.
    unfold max_s64, modulus in *. lia.
Qed.

(** C2. On a device that is not initialized, a payload that parses as the
    unsigned 64-bit decimal [n] makes [disksize_store] succeed (it returns
    [len]); the descriptor then holds [n] rounded down to a multiple of the
    page size as its [disksize], and the disk's capacity is that value
    shifted right by [SECTOR_SHIFT]; nothing else changes. *)
Theorem disksize_store_rounds_down st dev i z buf len n :
  0 <= PAGE_SHIFT < 64 ->
  resolves st dev i z ->
  init_done z = 0 ->
  parse_unsigned 64 buf = Some n ->
  disksize_store dev buf len st =
    Ret (len, with_devices (<[i := resized n z]> (zram_devices st)) st) /\
  disksize (resized n z) = PAGE_SIZE * (n / PAGE_SIZE) /\
  disksize (resized n z) <= n < disksize (resized n z) + PAGE_SIZE /\
  capacity (disk (resized n z)) = Z.shiftr (disksize (resized n z)) SECTOR_SHIFT /\
  init_done (resized n z) = init_done z /\
  stats (resized n z) = stats z.
Proof.
  intros Hshift Hres Hinit Hparse.
  split.
  { now rewrite (disksize_store_run _ _ _ _ _ _ Hshift Hres), Hinit, Hparse. }
  split; [reflexivity|].
  split.
  - cbn [resized disksize set_disk set_disksize].
    pose proof (PAGE_SIZE_pos (proj1 Hshift)) as Hpos.
    pose proof (Z.mul_div_le n PAGE_SIZE Hpos).
    pose proof (Z.mul_succ_div_gt n PAGE_SIZE Hpos). lia.
  - split; [|split; reflexivity].
    cbn [resized disksize set_disk set_disksize disk capacity with_capacity].
    now rewrite Z.shiftr_div_pow2 by (unfold SECTOR_SHIFT; lia).
Qed.

(** C3. When the block object of the resolved device has a nonzero holder
    count (any count above zero in particular), [reset_store] returns
    [-EBUSY] whatever the payload is, parsable or not, so the holder test
    comes before the parse; the kernel state is returned as it was: the
    descriptor table is untouched and the trace gains neither a flush nor a
    reset. *)
Theorem reset_store_busy st dev i z b buf len :
  resolves st dev i z ->
  bdget_disk (disk z) = Some b ->
  bd_holders b <> 0 ->
  reset_store dev buf len st = Ret (- EBUSY, st).
Proof.
  intros Hres Hb Hh. rewrite (reset_store_run _ _ _ _ _ _ Hres), Hb.
  destruct (Z.eqb_spec (bd_holders b) 0) as [E|_]; [contradiction|reflexivity].
Qed.

(** C4. With a block object that has no holder: a payload that does not
    parse makes [reset_store] return [-EINVAL], and so does a parsed flag of
    zero, the kernel state staying as it was in both cases (no flush, no
    reset); a nonzero flag flushes the block object and then calls
    [zram_reset_device] exactly when [init_done] is set, and the write
    returns [len]. *)
Theorem reset_store_idle st dev i z b buf len :
  resolves st dev i z ->
  bdget_disk (disk z) = Some b ->
  bd_holders b = 0 ->
  (parse_unsigned BITS_PER_LONG buf = None ->
     reset_store dev buf len st = Ret (- EINVAL, st)) /\
  (parse_unsigned BITS_PER_LONG buf = Some 0 ->
     reset_store dev buf len st = Ret (- EINVAL, st)) /\
  (forall n, parse_unsigned BITS_PER_LONG buf = Some n -> n <> 0 ->
     (init_done z = 0 ->
        reset_store dev buf len st =
          Ret (len, with_event (EvFsyncBdev (disk_to_dev (disk z))) st)) /\
     (init_done z <> 0 ->
        reset_store dev buf len st =
          Ret (len, with_devices (<[i := reset_descriptor z]> (zram_devices st))
                      (with_event (EvResetDevice i)
                         (with_event (EvFsyncBdev (disk_to_dev (disk z))) st))))).
Proof.
  intros Hres Hb Hh. rewrite (reset_store_run _ _ _ _ _ _ Hres), Hb, Hh.
  change (0 =? 0) with true. cbv iota.
  split; [|split].
  - now intros ->.
  - now intros ->.
  - intros n -> Hn. destruct (Z.eqb_spec n 0) as [E|_]; [contradiction|].
    split.
    + now intros ->.
    + intros Hi. cbv zeta.
      destruct (Z.eqb_spec (init_done z) 0) as [E|_]; [contradiction|reflexivity].
Qed.

(** C5 (what the code does). A capacity write to an initialized device
    returns [-EBUSY] and leaves the descriptor table as it was (only the
    [pr_info] line is emitted). A payload that does not parse makes the
    write return [-EINVAL], but the parser was handed [&zram->disksize]:
    the descriptor ends up with whatever the parser left there as its
    [disksize], next to the disk capacity it had, so the state is as it was
    exactly when the parser left the old value in place. *)
Theorem disksize_store_failures st dev i z buf len :
  resolves st dev i z ->
  (init_done z <> 0 ->
     disksize_store dev buf len st =
       Ret (- EBUSY, with_event (EvPrInfo cannot_change_msg) st)) /\
  (init_done z = 0 -> parse_unsigned 64 buf = None ->
     disksize_store dev buf len st =
       Ret (- EINVAL, with_devices (<[i := unparsed buf z]> (zram_devices st)) st) /\
     disksize (unparsed buf z) = failed_res buf (disksize z) /\
     capacity (disk (unparsed buf z)) = capacity (disk z) /\
     (with_devices (<[i := unparsed buf z]> (zram_devices st)) st = st <->
      failed_res buf (disksize z) = disksize z)).
Proof.
  intros Hres. assert (Hz : zram_devices st !! i = Some z) by apply Hres.
  rewrite (disksize_store_run_raw _ _ _ _ _ _ Hres).
  split.
  - intros Hi. destruct (Z.eqb_spec (init_done z) 0); [contradiction|reflexivity].
  - intros -> ->. split; [reflexivity|]. split; [reflexivity|].
    split; [reflexivity|]. split.
    + intros Hsame. apply (f_equal zram_devices) in Hsame.
      cbn [zram_devices with_devices] in Hsame.
      pose proof (lookup_updated _ _ _ (unparsed buf z) Hz) as Hnew.
      rewrite Hsame, Hz in Hnew. injection Hnew as Hnew.
      now rewrite Hnew at 2.
    + intros Hkeep. unfold unparsed. rewrite Hkeep, set_disksize_same.
      now rewrite (list_insert_id _ _ _ Hz), with_devices_same.
Qed.

(** C6 (what the scan does instead). When no descriptor of a non-empty
    table is attached to the handle, [dev_to_zram] returns the address of the
    last descriptor, not NULL. *)
Theorem dev_to_zram_no_match_returns_last st dev :
  zram_devices st <> [] ->
  Forall (fun z => disk_to_dev (disk z) <> dev) (zram_devices st) ->
  dev_to_zram dev st = Ret (Some (length (zram_devices st) - 1)%nat, st).
Proof.
  intros Hne Hall. unfold dev_to_zram.
  rewrite (dev_to_zram_loop_no_match _ _ _ _ Hall).
  destruct (zram_devices st); [contradiction|reflexivity].
Qed.

(** C7 (amended). A successful capacity write leaves [init_done] clear, so
    a second capacity write with a valid decimal payload succeeds as well and
    replaces the stored capacity by its own rounded value: the table ends up
    as if the second write alone had been made. *)
Theorem disksize_store_twice st dev i z buf1 len1 n1 buf2 len2 n2 :
  0 <= PAGE_SHIFT < 64 ->
  resolves st dev i z ->
  init_done z = 0 ->
  parse_unsigned 64 buf1 = Some n1 ->
  parse_unsigned 64 buf2 = Some n2 ->
  disksize_store dev buf1 len1 st =
    Ret (len1, with_devices (<[i := resized n1 z]> (zram_devices st)) st) /\
  init_done (resized n1 z) = 0 /\
  disksize_store dev buf2 len2
      (with_devices (<[i := resized n1 z]> (zram_devices st)) st) =
    Ret (len2, with_devices (<[i := resized n2 z]> (zram_devices st)) st) /\
  disksize (resized n2 z) = PAGE_SIZE * (n2 / PAGE_SIZE).
Proof.
  intros Hshift Hres Hinit Hp1 Hp2.
  split.
  { now rewrite (disksize_store_run _ _ _ _ _ _ Hshift Hres), Hinit, Hp1. }
  split; [exact Hinit|]. split; [|reflexivity].
  assert (Hres1 : resolves (with_devices (<[i := resized n1 z]> (zram_devices st)) st)
                           dev i (resized n1 z))
    by now apply (resolves_updated st dev i z).
  rewrite (disksize_store_run _ _ _ _ _ _ Hshift Hres1).
  change (init_done (resized n1 z)) with (init_done z). rewrite Hinit, Hp2.
  cbn [zram_devices with_devices]. rewrite list_insert_insert_eq.
  now rewrite resized_resized.
Qed.

(** C8. [mem_used_total_show] prints [0] for a device that is not
    initialized, and for an initialized one the pool's byte total plus the
    [ZRAM_STAT_PAGES_EXPAND] sum shifted left by [PAGE_SHIFT], both in
    [u64] arithmetic; for a nonnegative pool total and shard total whose
    combination fits 64 bits that is the plain integer
    [poolTotal + (pagesExpand << PAGE_SHIFT)]. *)
Theorem mem_used_total_show_value fuel st dev i z :
  resolves st dev i z ->
  (init_done z = 0 ->
     mem_used_total_show (S fuel) dev st = Ret (sprintf_llu 0, st)) /\
  (init_done z <> 0 ->
     forall pages st',
       zram_get_stat (S fuel) (Some i) ZRAM_STAT_PAGES_EXPAND st = Ret (pages, st') ->
       mem_used_total_show (S fuel) dev st =
         Ret (sprintf_llu
                (add64 (xv_get_total_size_bytes (mem_pool z)) (shl64 pages PAGE_SHIFT)),
              st')) /\
  zram_get_stat (S fuel) (Some i) ZRAM_STAT_PAGES_EXPAND st =
    Ret (to_u64 (signed_total z ZRAM_STAT_PAGES_EXPAND),
         warned (signed_total z ZRAM_STAT_PAGES_EXPAND) st) /\
  (0 <= PAGE_SHIFT ->
   0 <= total_size_bytes (mem_pool z) ->
   0 <= shard_total z ZRAM_STAT_PAGES_EXPAND ->
   total_size_bytes (mem_pool z)
     + Z.shiftl (shard_total z ZRAM_STAT_PAGES_EXPAND) PAGE_SHIFT < 2 ^ 64 ->
   add64 (xv_get_total_size_bytes (mem_pool z))
         (shl64 (to_u64 (signed_total z ZRAM_STAT_PAGES_EXPAND)) PAGE_SHIFT)
     = total_size_bytes (mem_pool z)
       + Z.shiftl (shard_total z ZRAM_STAT_PAGES_EXPAND) PAGE_SHIFT).
Proof.
  intros Hres. rewrite (mem_used_total_show_run _ _ _ _ _ Hres).
  rewrite (zram_get_stat_run _ _ _ _ _ (proj2 Hres)).
  split; [|split; [|split]].
  - now intros ->.
  - intros Hi pages st' [= <- <-].
    destruct (Z.eqb_spec (init_done z) 0); [contradiction|reflexivity].
  - reflexivity.
  - intros Hk Hpool Htot Hfit.
    assert (0 <= Z.shiftl (shard_total z ZRAM_STAT_PAGES_EXPAND) PAGE_SHIFT)
      by now apply Z.shiftl_nonneg.
    rewrite to_u64_signed_total, shl64_exact by lia.
    unfold xv_get_total_size_bytes, add64.
    rewrite (to_u64_small (total_size_bytes _)) by (unfold modulus; lia).
    apply to_u64_small. unfold modulus. lia.
Qed.

(** C9. [orig_data_size_show] prints the [ZRAM_STAT_PAGES_STORED] sum
    shifted left by [PAGE_SHIFT] in [u64] arithmetic, for every value of the
    sum; a sum of [0] prints [0]; and whenever the shifted shard total fits
    64 bits the printed number is the plain integer shift of the total. *)
Theorem orig_data_size_show_value fuel st dev i z :
  resolves st dev i z ->
  (forall pages st',
     zram_get_stat (S fuel) (Some i) ZRAM_STAT_PAGES_STORED st = Ret (pages, st') ->
     orig_data_size_show (S fuel) dev st = Ret (sprintf_llu (shl64 pages PAGE_SHIFT), st')) /\
  zram_get_stat (S fuel) (Some i) ZRAM_STAT_PAGES_STORED st =
    Ret (to_u64 (signed_total z ZRAM_STAT_PAGES_STORED),
         warned (signed_total z ZRAM_STAT_PAGES_STORED) st) /\
  (shard_total z ZRAM_STAT_PAGES_STORED = 0 ->
     orig_data_size_show (S fuel) dev st = Ret (sprintf_llu 0, st)) /\
  (0 <= PAGE_SHIFT ->
   0 <= shard_total z ZRAM_STAT_PAGES_STORED ->
   Z.shiftl (shard_total z ZRAM_STAT_PAGES_STORED) PAGE_SHIFT < 2 ^ 64 ->
   shl64 (to_u64 (signed_total z ZRAM_STAT_PAGES_STORED)) PAGE_SHIFT
     = Z.shiftl (shard_total z ZRAM_STAT_PAGES_STORED) PAGE_SHIFT).
Proof.
  intros Hres. rewrite (orig_data_size_show_run _ _ _ _ _ Hres).
  rewrite (zram_get_stat_run _ _ _ _ _ (proj2 Hres)).
  split; [now intros pages st' [= <- <-]|].
  split; [reflexivity|]. split.
  - intros H0. unfold signed_total. rewrite H0.
    change (to_u64 (wrap_s64 0)) with 0. unfold shl64.
    now rewrite Z.shiftl_0_l.
  - intros Hk Htot Hfit. rewrite to_u64_signed_total. now apply shl64_exact.
Qed.

(** C10. [reset_store] reads [bdev->bd_holders] before it tests [bdev]:
    when [bdget_disk] yields NULL the call ends in a NULL dereference for
    every payload, and the later [if (bdev)] test never decides anything,
    the function being equal to the one without that test. *)
Theorem reset_store_null_bdev st dev i z buf len :
  resolves st dev i z ->
  bdget_disk (disk z) = None ->
  reset_store dev buf len st = Oops /\
  (forall dev' buf' len' st',
     reset_store dev' buf' len' st' = reset_store_unguarded dev' buf' len' st').
Proof.
  intros Hres Hb. split.
  - now rewrite (reset_store_run _ _ _ _ _ _ Hres), Hb.
  - intros. apply reset_store_guard_dead.
Qed.

(** ** Further properties of the file *)

(** *** More on the registry scan *)

Lemma dev_to_zram_loop_from_some dev devs : forall i k,
  exists j, dev_to_zram_loop devs i (Some k) dev = Some j.
Proof.
  induction devs as [|z devs IH]; intros i k; cbn [dev_to_zram_loop].
  - now exists k.
  - destruct (disk_to_dev (disk z) =? dev); [now exists i|apply IH].
Qed.

Lemma dev_to_zram_loop_nonempty dev devs :
  devs <> [] -> exists j, dev_to_zram_loop devs 0%nat None dev = Some j.
Proof.
  destruct devs as [|z devs]; [contradiction|]. intros _. cbn [dev_to_zram_loop].
  destruct (disk_to_dev (disk z) =? dev); [now exists 0%nat|].
  apply dev_to_zram_loop_from_some.
Qed.

Lemma resolves_nonempty st dev :
  zram_devices st <> [] -> exists i z, resolves st dev i z.
Proof.
  intros Hne. destruct (dev_to_zram_loop_nonempty dev _ Hne) as [i Hi].
  destruct (resolves_total _ _ _ Hi) as [z Hz]. now exists i, z.
Qed.

(** X1. [dev_to_zram] returns the first descriptor whose disk carries the
    handle: the slot [k] when slot [k] carries it and no slot before [k]
    does, later slots with the same handle notwithstanding; the state is
    not touched. *)
Theorem dev_to_zram_first_match st dev k z :
  zram_devices st !! k = Some z ->
  disk_to_dev (disk z) = dev ->
  (forall j z', (j < k)%nat -> zram_devices st !! j = Some z' ->
                disk_to_dev (disk z') <> dev) ->
  dev_to_zram dev st = Ret (Some k, st).
Proof.
  intros Hk Hd Hbefore. unfold dev_to_zram.
  now rewrite (dev_to_zram_loop_first _ _ 0%nat None k z Hk Hd Hbefore).
Qed.

(** X2. [dev_to_zram] never fails and never changes the state; it returns
    NULL exactly when the table is empty, and any other result is the
    address of a slot of the table. *)
Theorem dev_to_zram_null_iff_empty st dev :
  exists p,
    dev_to_zram dev st = Ret (p, st) /\
    (p = None <-> zram_devices st = []) /\
    (forall i, p = Some i -> (i < length (zram_devices st))%nat).
Proof.
  exists (dev_to_zram_loop (zram_devices st) 0%nat None dev).
  split; [reflexivity|]. split.
  - split.
    + intros Hnone. destruct (zram_devices st) as [|z devs] eqn:E; [reflexivity|].
      destruct (dev_to_zram_loop_nonempty dev (z :: devs)) as [j Hj]; [discriminate|].
      congruence.
    + now intros ->.
  - intros i Hi. apply dev_to_zram_loop_bound in Hi as [[=]|Hi]. lia.
Qed.

(** *** The attribute group as a whole *)

Lemma bind_scan {B : Type} dev dev' (k : zram_ptr -> M B) st :
  dev_to_zram_loop (zram_devices st) 0%nat None dev =
    dev_to_zram_loop (zram_devices st) 0%nat None dev' ->
  bind (dev_to_zram dev) k st = bind (dev_to_zram dev') k st.
Proof. intros H. unfold bind, dev_to_zram. now rewrite H. Qed.

(** Unfolds the handlers of the group down to their first [bind]. *)
Ltac open_handler :=
  cbv delta [disksize_show disksize_store initstate_show reset_store
             num_reads_show num_writes_show invalid_io_show notify_free_show
             discard_show zero_pages_show orig_data_size_show
             compr_data_size_show mem_used_total_show] beta zeta.

(** Splits a statement about [zram_disk_attrs] into one goal per handler
    that is not NULL. *)
Ltac each_handler :=
  unfold zram_disk_attrs; repeat apply List.Forall_cons; try apply List.Forall_nil;
  (split; intros ? [=]; subst).

(** Every handler looks at its [dev] argument through the scan only. *)
Lemma handlers_scan_only st dev dev' fuel buf len :
  dev_to_zram_loop (zram_devices st) 0%nat None dev =
    dev_to_zram_loop (zram_devices st) 0%nat None dev' ->
  Forall (fun a =>
            (forall f, show a = Some f -> f fuel dev st = f fuel dev' st) /\
            (forall g, store a = Some g -> g dev buf len st = g dev' buf len st))
         zram_disk_attrs.
Proof.
  intros H. each_handler; open_handler; now apply bind_scan.
Qed.

(** X3. No handler of the attribute group tests what [dev_to_zram] returns:
    with an empty table each of them ends in a NULL dereference. *)
Theorem handlers_fault_on_empty_table st dev fuel buf len :
  zram_devices st = [] ->
  Forall (fun a =>
            (forall f, show a = Some f -> f fuel dev st = Oops) /\
            (forall g, store a = Some g -> g dev buf len st = Oops))
         zram_disk_attrs.
Proof.
  intros H. destruct st as [devs tr]. cbn in H. subst devs.
  each_handler; reflexivity.
Qed.

(** X4. A handle that no descriptor carries is served as the last device:
    on such a handle every handler of the group does exactly what it does
    on the handle of the last descriptor. *)
Theorem unmatched_handle_served_as_last st dev dlast zlast fuel buf len :
  Forall (fun z => disk_to_dev (disk z) <> dev) (zram_devices st) ->
  resolves st dlast (length (zram_devices st) - 1) zlast ->
  Forall (fun a =>
            (forall f, show a = Some f -> f fuel dev st = f fuel dlast st) /\
            (forall g, store a = Some g -> g dev buf len st = g dlast buf len st))
         zram_disk_attrs.
Proof.
  intros Hall [Hlast Hz]. apply handlers_scan_only.
  rewrite Hlast, (dev_to_zram_loop_no_match _ _ _ _ Hall).
  destruct (zram_devices st); [discriminate|reflexivity].
Qed.

(** *** More on the capacity write *)

Lemma same_identity_refl z : same_identity z z.
Proof. now repeat split. Qed.

(** X5. On a non-empty table [disksize_store] always returns, and whatever
    the payload it keeps the table's length, leaves every descriptor other
    than the one the scan yields exactly as it was, and in that one changes
    nothing but [disksize] and the disk's capacity: [init_done], the
    counters, the pool, the device handle and the block device stay. It
    never flushes or resets: the trace gains at most its own [pr_info]. *)
Theorem disksize_store_frame st dev buf len :
  zram_devices st <> [] ->
  exists r st',
    disksize_store dev buf len st = Ret (r, st') /\
    length (zram_devices st') = length (zram_devices st) /\
    (forall j z, zram_devices st !! j = Some z ->
       exists z', zram_devices st' !! j = Some z' /\ same_identity z z' /\
                  (dev_to_zram dev st <> Ret (Some j, st) -> z' = z)) /\
    (trace st' = trace st \/
     trace st' = EvPrInfo cannot_change_msg :: trace st).
Proof.
  intros Hne. destruct (resolves_nonempty st dev Hne) as (i & z & Hres).
  rewrite (disksize_store_run_raw _ _ _ _ _ _ Hres).
  destruct Hres as [Hloop Hz].
  assert (Hsame : forall j zj, zram_devices st !! j = Some zj ->
            exists z', zram_devices st !! j = Some z' /\ same_identity zj z' /\
                       (dev_to_zram dev st <> Ret (Some j, st) -> z' = zj)).
  { intros j zj Hj. exists zj. split; [exact Hj|].
    split; [apply same_identity_refl|reflexivity]. }
  assert (Hput : forall z', same_identity z z' ->
            forall j zj, zram_devices st !! j = Some zj ->
            exists zj', <[i := z']> (zram_devices st) !! j = Some zj' /\
                        same_identity zj zj' /\
                        (dev_to_zram dev st <> Ret (Some j, st) -> zj' = zj)).
  { intros z' Hid j zj Hj. destruct (decide (j = i)) as [->|Hji].
    - assert (zj = z) as -> by congruence.
      exists z'. split; [now apply lookup_updated with z|].
      split; [exact Hid|].
      intros Hno. exfalso. apply Hno. unfold dev_to_zram. now rewrite Hloop.
    - exists zj. rewrite list_lookup_insert_ne by congruence.
      split; [exact Hj|]. split; [apply same_identity_refl|reflexivity]. }
  destruct (init_done z =? 0).
  - destruct (parse_unsigned 64 buf) as [n|];
      (eexists; eexists; split; [reflexivity|];
       cbn [zram_devices with_devices trace]; split; [apply length_insert|];
       split; [|now left]; apply Hput; now repeat split).
  - eexists; eexists. split; [reflexivity|]. split; [reflexivity|].
    split; [exact Hsame|now right].
Qed.

Lemma resized_aligned n : 0 <= PAGE_SHIFT -> (PAGE_SIZE * (n / PAGE_SIZE)) mod PAGE_SIZE = 0.
Proof.
  intros H. pose proof (PAGE_SIZE_pos H). rewrite Z.mul_comm. apply Z.mod_mul. lia.
Qed.

(** X6. A successful capacity write leaves a capacity that is a multiple of
    the page size and not above the request, and, pages being at least a
    sector long, a disk capacity that is exactly that many bytes: sectors
    times 512 gives [disksize] back, nothing is lost to the shift. *)
Theorem disksize_store_page_aligned st dev i z buf len n :
  SECTOR_SHIFT <= PAGE_SHIFT < 64 ->
  resolves st dev i z ->
  init_done z = 0 ->
  parse_unsigned 64 buf = Some n ->
  exists z',
    disksize_store dev buf len st =
      Ret (len, with_devices (<[i := z']> (zram_devices st)) st) /\
    disksize z' mod PAGE_SIZE = 0 /\
    0 <= disksize z' <= n /\
    capacity (disk z') * 2 ^ SECTOR_SHIFT = disksize z'.
Proof.
  intros Hshift Hres Hinit Hparse. exists (resized n z).
  assert (Hk : 0 <= PAGE_SHIFT < 64) by (unfold SECTOR_SHIFT in Hshift; lia).
  pose proof (PAGE_SIZE_pos (proj1 Hk)) as Hpos.
  pose proof (parse_unsigned_range _ _ _ Hparse) as Hn.
  split.
  { now rewrite (disksize_store_run _ _ _ _ _ _ Hk Hres), Hinit, Hparse. }
  cbn [resized disksize set_disk set_disksize disk capacity with_capacity].
  split; [now apply resized_aligned|]. split.
  - pose proof (Z.mul_div_le n PAGE_SIZE Hpos).
    assert (0 <= n / PAGE_SIZE) by (apply Z.div_pos; lia). nia.
  - unfold PAGE_SIZE. rewrite Z.shiftl_1_l.
    replace PAGE_SHIFT with (SECTOR_SHIFT + (PAGE_SHIFT - SECTOR_SHIFT)) at 1 3 by lia.
    rewrite Z.pow_add_r by (unfold SECTOR_SHIFT in *; lia).
    rewrite <- Z.mul_assoc, (Z.mul_comm (2 ^ SECTOR_SHIFT)).
    rewrite Z.div_mul by (unfold SECTOR_SHIFT; lia). ring.
Qed.

(** X7. The two ends of the rounding: a request below one page is accepted
    and stored as a capacity of zero bytes and zero sectors, and a request
    that is already a multiple of the page size is stored exactly. *)
Theorem disksize_store_boundaries st dev i z buf len n :
  0 <= PAGE_SHIFT < 64 ->
  resolves st dev i z ->
  init_done z = 0 ->
  parse_unsigned 64 buf = Some n ->
  exists z',
    disksize_store dev buf len st =
      Ret (len, with_devices (<[i := z']> (zram_devices st)) st) /\
    (n < PAGE_SIZE -> disksize z' = 0 /\ capacity (disk z') = 0) /\
    (n mod PAGE_SIZE = 0 -> disksize z' = n).
Proof.
  intros Hk Hres Hinit Hparse. exists (resized n z).
  pose proof (PAGE_SIZE_pos (proj1 Hk)) as Hpos.
  pose proof (parse_unsigned_range _ _ _ Hparse) as Hn.
  split.
  { now rewrite (disksize_store_run _ _ _ _ _ _ Hk Hres), Hinit, Hparse. }
  cbn [resized disksize set_disk set_disksize disk capacity with_capacity].
  split.
  - intros Hlt. rewrite Z.div_small by lia. rewrite Z.mul_0_r. now split.
  - intros Hmod. pose proof (Z.div_mod n PAGE_SIZE). lia.
Qed.

Lemma string_length_text_line s :
  String.length (text_line s) = S (String.length s).
Proof.
  unfold text_line. induction s as [|c s IH]; [reflexivity|].
  cbn [String.append String.length]. now rewrite IH.
Qed.

(** [sprintf_llu] on a [u64]: the digits, a newline, and the count of both;
    the digits parse back to the number. *)
Lemma sprintf_llu_digits v :
  0 <= v < 2 ^ 64 ->
  exists digits,
    sprintf_llu v = (Z.of_nat (String.length digits) + 1, text_line digits) /\
    parse_unsigned 64 digits = Some v.
Proof.
  intros Hv. destruct (sprintf_llu_parse v Hv) as (digits & Htext & Hparse).
  exists digits. split; [|exact Hparse].
  unfold sprintf_llu in *. cbn [snd] in Htext. rewrite Htext.
  rewrite string_length_text_line. f_equal. lia.
Qed.

Lemma disksize_show_run st dev i z :
  resolves st dev i z ->
  disksize_show dev st = Ret (sprintf_llu (disksize z), st).
Proof. intros Hres. unfold disksize_show. now enter Hres. Qed.

Lemma initstate_show_run st dev i z :
  resolves st dev i z ->
  initstate_show dev st = Ret (sprintf_u (init_done z), st).
Proof. intros Hres. unfold initstate_show. now enter Hres. Qed.

(** X8. Write, read, write back: after a successful capacity write
    [disksize_show] prints the decimal numeral of the rounded capacity and a
    newline, returns the number of characters printed and changes nothing;
    the numeral parses to the stored capacity, and writing it back succeeds
    and leaves the state exactly as it is. *)
Theorem disksize_show_after_store st dev i z buf len n :
  0 <= PAGE_SHIFT < 64 ->
  resolves st dev i z ->
  init_done z = 0 ->
  parse_unsigned 64 buf = Some n ->
  exists st' digits,
    disksize_store dev buf len st = Ret (len, st') /\
    disksize_show dev st' =
      Ret ((Z.of_nat (String.length digits) + 1, text_line digits), st') /\
    parse_unsigned 64 digits = Some (PAGE_SIZE * (n / PAGE_SIZE)) /\
    (forall len', disksize_store dev digits len' st' = Ret (len', st')).
Proof.
  intros Hk Hres Hinit Hparse.
  pose proof (PAGE_SIZE_pos (proj1 Hk)) as Hpos.
  pose proof (parse_unsigned_range _ _ _ Hparse) as Hn.
  assert (Hcap : 0 <= PAGE_SIZE * (n / PAGE_SIZE) < 2 ^ 64).
  { pose proof (Z.mul_div_le n PAGE_SIZE Hpos).
    assert (0 <= n / PAGE_SIZE) by (apply Z.div_pos; lia). nia. }
  destruct (sprintf_llu_digits _ Hcap) as (digits & Hprint & Hback).
  assert (Hres' : resolves (with_devices (<[i := resized n z]> (zram_devices st)) st)
                           dev i (resized n z))
    by now apply (resolves_updated st dev i z).
  exists (with_devices (<[i := resized n z]> (zram_devices st)) st), digits.
  split.
  { now rewrite (disksize_store_run _ _ _ _ _ _ Hk Hres), Hinit, Hparse. }
  split.
  { rewrite (disksize_show_run _ _ _ _ Hres'). now rewrite <- Hprint. }
  split; [exact Hback|].
  intros len'. rewrite (disksize_store_run _ _ _ _ _ _ Hk Hres').
  change (init_done (resized n z)) with (init_done z). rewrite Hinit, Hback.
  cbn [zram_devices with_devices]. rewrite list_insert_insert_eq, resized_resized.
  assert (Hfix : resized (PAGE_SIZE * (n / PAGE_SIZE)) z = resized n z).
  { unfold resized.
    replace (PAGE_SIZE * (n / PAGE_SIZE) / PAGE_SIZE) with (n / PAGE_SIZE);
      [reflexivity|].
    rewrite Z.mul_comm, Z.div_mul; lia. }
  now rewrite Hfix.
Qed.

(** *** More on the reset *)

(** X9. On a device that is not initialized [reset_store] changes no
    descriptor and never calls [zram_reset_device], whatever the payload and
    the holder count: it either faults on a NULL block device, or returns
    with the table as it was and a trace that gained at most the flush,
    which happens only when the write is accepted. *)
Theorem reset_store_uninitialized_keeps_table st dev i z buf len :
  resolves st dev i z ->
  init_done z = 0 ->
  (bdget_disk (disk z) = None /\ reset_store dev buf len st = Oops) \/
  (exists r st',
     reset_store dev buf len st = Ret (r, st') /\
     zram_devices st' = zram_devices st /\
     ((trace st' = trace st /\ (r = - EBUSY \/ r = - EINVAL)) \/
      (trace st' = EvFsyncBdev (disk_to_dev (disk z)) :: trace st /\ r = len))).
Proof.
  intros Hres Hinit. rewrite (reset_store_run _ _ _ _ _ _ Hres), Hinit.
  destruct (bdget_disk (disk z)) as [b|]; [right|now left].
  destruct (bd_holders b =? 0).
  - destruct (parse_unsigned BITS_PER_LONG buf) as [n|].
    + destruct (n =? 0).
      * eexists; eexists. split; [reflexivity|]. split; [reflexivity|].
        left. split; [reflexivity|now right].
      * cbv zeta. change (0 =? 0) with true. cbv iota.
        eexists; eexists. split; [reflexivity|]. split; [reflexivity|].
        right. now split.
    + eexists; eexists. split; [reflexivity|]. split; [reflexivity|].
      left. split; [reflexivity|now right].
  - eexists; eexists. split; [reflexivity|]. split; [reflexivity|].
    left. split; [reflexivity|now left].
Qed.

(** *** More on the per-CPU sum *)

Lemma sum_Permutation (l l' : list Z) :
  Permutation l l' -> fold_right Z.add 0 l = fold_right Z.add 0 l'.
Proof.
  induction 1 as [|x l l' _ IH|x y l|l l' l'' _ IH1 _ IH2]; cbn [fold_right];
    [reflexivity|now rewrite IH|lia|congruence].
Qed.

Lemma sum_insert (f : zram_stats_cpu -> Z) (l : list zram_stats_cpu) : forall k s s',
  l !! k = Some s ->
  fold_right Z.add 0 (map f (<[k := s']> l)) =
    fold_right Z.add 0 (map f l) - f s + f s'.
Proof.
  induction l as [|x l IH]; intros k s s' Hk; [discriminate|].
  destruct k as [|k].
  - injection Hk as ->. cbn. lia.
  - change (<[S k := s']> (x :: l)) with (x :: <[k := s']> l).
    cbn [map fold_right]. rewrite (IH k s s' Hk). lia.
Qed.

(** X10. The sum does not depend on which CPU holds which shard value, nor
    on the generation markers or the retry budget: two descriptors whose
    shard values for a statistic are permutations of each other are read as
    the same number, with the same diagnostic. *)
Theorem zram_get_stat_order_independent fuel fuel' st st' i j z z' idx :
  zram_devices st !! i = Some z ->
  zram_devices st' !! j = Some z' ->
  Permutation (map (fun s => count s idx) (stats z))
              (map (fun s => count s idx) (stats z')) ->
  exists v acc,
    zram_get_stat (S fuel) (Some i) idx st = Ret (v, warned acc st) /\
    zram_get_stat (S fuel') (Some j) idx st' = Ret (v, warned acc st').
Proof.
  intros Hz Hz' Hperm.
  exists (to_u64 (signed_total z idx)), (signed_total z idx).
  rewrite (zram_get_stat_run _ _ _ _ _ Hz), (zram_get_stat_run _ _ _ _ _ Hz').
  unfold signed_total, shard_total. now rewrite (sum_Permutation _ _ Hperm).
Qed.

(** X11. A change of one shard is a change of the sum: when a descriptor
    differs from another in one CPU's shard only, and there by [delta] in
    one statistic, the sum of that statistic read from it is the other sum
    plus [delta] modulo [2^64], whichever CPU it is. *)
Theorem zram_get_stat_shard_delta fuel st st' i j z z' idx k s s' delta :
  zram_devices st !! i = Some z ->
  zram_devices st' !! j = Some z' ->
  stats z !! k = Some s ->
  stats z' = <[k := s']> (stats z) ->
  count s' idx = count s idx + delta ->
  exists v v' st1 st1',
    zram_get_stat (S fuel) (Some i) idx st = Ret (v, st1) /\
    zram_get_stat (S fuel) (Some j) idx st' = Ret (v', st1') /\
    v' = (v + delta) mod 2 ^ 64.
Proof.
  intros Hz Hz' Hk Hstats Hdelta.
  do 4 eexists.
  rewrite (zram_get_stat_run _ _ _ _ _ Hz), (zram_get_stat_run _ _ _ _ _ Hz').
  split; [reflexivity|]. split; [reflexivity|].
  rewrite !to_u64_signed_total. unfold shard_total, to_u64, modulus.
  rewrite Hstats, (sum_insert _ _ _ _ _ Hk), Hdelta.
  rewrite Zplus_mod_idemp_l. f_equal. lia.
Qed.

(** *** The readers *)

Lemma stat_show_run idx fuel st dev i z :
  resolves st dev i z ->
  stat_show idx (S fuel) dev st =
    Ret (sprintf_llu (to_u64 (signed_total z idx)), warned (signed_total z idx) st).
Proof.
  intros [Hloop Hz]. unfold stat_show, bind at 1, dev_to_zram.
  rewrite Hloop. unfold bind at 1. now rewrite (zram_get_stat_run _ _ _ _ _ Hz).
Qed.

Lemma warned_trace acc st :
  zram_devices (warned acc st) = zram_devices st /\
  (trace (warned acc st) = trace st \/
   trace (warned acc st) = EvWarnOn :: trace st).
Proof. unfold warned. destruct (acc <? 0); [now split; [|right]|now split; [|left]]. Qed.

Lemma read_only_sprintf v acc st :
  read_only_at st (Ret (sprintf_llu v, warned acc st)).
Proof.
  exists (sprintf_llu v), (warned acc st). split; [reflexivity|].
  destruct (warned_trace acc st) as [Hd Ht]. now repeat split.
Qed.

Lemma read_only_plain out st :
  fst out = Z.of_nat (String.length (snd out)) -> read_only_at st (Ret (out, st)).
Proof. intros H. exists out, st. repeat split; [now left|exact H]. Qed.

(** X12. Every reader of the attribute group is read-only: on a non-empty
    table and with a positive retry budget it returns, leaves the descriptor
    table as it was, adds at most the [WARN_ON] diagnostic to the trace, and
    returns the length of the text it wrote. *)
Theorem readers_are_read_only st dev fuel :
  zram_devices st <> [] ->
  Forall (fun a => forall f, show a = Some f -> read_only_at st (f (S fuel) dev st))
         zram_disk_attrs.
Proof.
  intros Hne. destruct (resolves_nonempty st dev Hne) as (i & z & Hres).
  unfold zram_disk_attrs; repeat apply List.Forall_cons; try apply List.Forall_nil;
    intros ? [=]; subst.
  - rewrite (disksize_show_run _ _ _ _ Hres). now apply read_only_plain.
  - rewrite (initstate_show_run _ _ _ _ Hres). now apply read_only_plain.
  - change (read_only_at st (stat_show ZRAM_STAT_NUM_READS (S fuel) dev st)).
    rewrite (stat_show_run _ _ _ _ _ _ Hres). apply read_only_sprintf.
  - change (read_only_at st (stat_show ZRAM_STAT_NUM_WRITES (S fuel) dev st)).
    rewrite (stat_show_run _ _ _ _ _ _ Hres). apply read_only_sprintf.
  - change (read_only_at st (stat_show ZRAM_STAT_INVALID_IO (S fuel) dev st)).
    rewrite (stat_show_run _ _ _ _ _ _ Hres). apply read_only_sprintf.
  - change (read_only_at st (stat_show ZRAM_STAT_NOTIFY_FREE (S fuel) dev st)).
    rewrite (stat_show_run _ _ _ _ _ _ Hres). apply read_only_sprintf.
  - change (read_only_at st (stat_show ZRAM_STAT_DISCARD (S fuel) dev st)).
    rewrite (stat_show_run _ _ _ _ _ _ Hres). apply read_only_sprintf.
  - change (read_only_at st (stat_show ZRAM_STAT_PAGES_ZERO (S fuel) dev st)).
    rewrite (stat_show_run _ _ _ _ _ _ Hres). apply read_only_sprintf.
  - rewrite (orig_data_size_show_run _ _ _ _ _ Hres). apply read_only_sprintf.
  - change (read_only_at st (stat_show ZRAM_STAT_COMPR_SIZE (S fuel) dev st)).
    rewrite (stat_show_run _ _ _ _ _ _ Hres). apply read_only_sprintf.
  - rewrite (mem_used_total_show_run _ _ _ _ _ Hres).
    destruct (init_done z =? 0); [now apply read_only_plain|apply read_only_sprintf].
Qed.

Lemma stat_show_exact idx fuel st dev i z :
  resolves st dev i z ->
  0 <= shard_total z idx <= max_s64 ->
  stat_show idx (S fuel) dev st = Ret (sprintf_llu (shard_total z idx), st).
Proof.
  intros Hres Hrange. rewrite (stat_show_run _ _ _ _ _ _ Hres).
  unfold signed_total. rewrite wrap_s64_small by (unfold min_s64; lia).
  rewrite to_u64_small by (unfold max_s64, modulus in *; lia).
  unfold warned. destruct (Z.ltb_spec (shard_total z idx) 0); [lia|reflexivity].
Qed.

(** X13. Each of the seven plain counter attributes reads its own
    statistic: whenever the shards of that statistic add up to a valid
    count (nonnegative, within [s64]) the reader prints exactly that total
    and leaves the whole state, trace included, as it was. *)
Theorem counter_readers_exact fuel st dev i z :
  resolves st dev i z ->
  (0 <= shard_total z ZRAM_STAT_NUM_READS <= max_s64 ->
     num_reads_show (S fuel) dev st =
       Ret (sprintf_llu (shard_total z ZRAM_STAT_NUM_READS), st)) /\
  (0 <= shard_total z ZRAM_STAT_NUM_WRITES <= max_s64 ->
     num_writes_show (S fuel) dev st =
       Ret (sprintf_llu (shard_total z ZRAM_STAT_NUM_WRITES), st)) /\
  (0 <= shard_total z ZRAM_STAT_INVALID_IO <= max_s64 ->
     invalid_io_show (S fuel) dev st =
       Ret (sprintf_llu (shard_total z ZRAM_STAT_INVALID_IO), st)) /\
  (0 <= shard_total z ZRAM_STAT_NOTIFY_FREE <= max_s64 ->
     notify_free_show (S fuel) dev st =
       Ret (sprintf_llu (shard_total z ZRAM_STAT_NOTIFY_FREE), st)) /\
  (0 <= shard_total z ZRAM_STAT_DISCARD <= max_s64 ->
     discard_show (S fuel) dev st =
       Ret (sprintf_llu (shard_total z ZRAM_STAT_DISCARD), st)) /\
  (0 <= shard_total z ZRAM_STAT_PAGES_ZERO <= max_s64 ->
     zero_pages_show (S fuel) dev st =
       Ret (sprintf_llu (shard_total z ZRAM_STAT_PAGES_ZERO), st)) /\
  (0 <= shard_total z ZRAM_STAT_COMPR_SIZE <= max_s64 ->
     compr_data_size_show (S fuel) dev st =
       Ret (sprintf_llu (shard_total z ZRAM_STAT_COMPR_SIZE), st)).
Proof.
  intros Hres. repeat split; intros Hrange;
    exact (stat_show_exact _ fuel st dev i z Hres Hrange).
Qed.

(** X14. The names of the attribute group are pairwise distinct, and mode
    and handlers agree in each attribute: it has a reader exactly when its
    mode grants reading and a writer exactly when its mode grants writing. *)
Theorem zram_disk_attrs_modes_match_handlers :
  List.NoDup (map attr_name zram_disk_attrs) /\
  Forall (fun a =>
            (show a <> None <-> Z.land (attr_mode a) S_IRUGO <> 0) /\
            (store a <> None <-> Z.land (attr_mode a) S_IWUGO <> 0))
         zram_disk_attrs.
Proof.
  split.
  - cbn [map zram_disk_attrs attr_name].
    repeat (apply List.NoDup_cons; [cbn; intuition discriminate|]).
    apply List.NoDup_nil.
  - unfold zram_disk_attrs; repeat apply List.Forall_cons; try apply List.Forall_nil;
      cbn; (split; split; intros H; try discriminate; now contradiction H).
Qed.

(** X15. [orig_data_size] is always a whole number of pages: the number
    [orig_data_size_show] prints is a [u64] multiple of the page size, also
    when the shift wraps. *)
Theorem orig_data_size_is_page_multiple fuel st dev i z :
  0 <= PAGE_SHIFT <= 64 ->
  resolves st dev i z ->
  exists v st',
    orig_data_size_show (S fuel) dev st = Ret (sprintf_llu v, st') /\
    0 <= v < 2 ^ 64 /\
    v mod PAGE_SIZE = 0.
Proof.
  intros Hk Hres. rewrite (orig_data_size_show_run _ _ _ _ _ Hres).
  eexists; eexists. split; [reflexivity|]. split; [apply to_u64_range|].
  unfold shl64, to_u64, modulus, PAGE_SIZE.
  rewrite Z.shiftl_1_l, Z.shiftl_mul_pow2 by lia.
  replace 64 with ((64 - PAGE_SHIFT) + PAGE_SHIFT) by lia.
  rewrite Z.pow_add_r by lia.
  assert (0 < 2 ^ PAGE_SHIFT) by (apply Z.pow_pos_nonneg; lia).
  assert (0 < 2 ^ (64 - PAGE_SHIFT)) by (apply Z.pow_pos_nonneg; lia).
  rewrite Z.mul_mod_distr_r by lia. apply Z.mod_mul. lia.
Qed.

End Sysfs.

Lemma resolves_fresh : resolves st_demo 100 0 zram_fresh.
Proof. split; reflexivity. Qed.

Lemma resolves_open : resolves st_demo 101 1 zram_open.
Proof. split; reflexivity. Qed.

Lemma resolves_nobdev : resolves st_demo 102 2 zram_nobdev.
Proof. split; reflexivity. Qed.

Lemma resolves_idle : resolves st_demo 103 3 zram_idle.
Proof. split; reflexivity. Qed.

Lemma page_shift_12 : 0 <= 12 < 64.
Proof. lia. Qed.

(** ** The theorems at work on the concrete table *)

(** The [ZRAM_STAT_NOTIFY_FREE] shards [1] and [-3] sum to [-2]: the read
    warns and returns [2^64 - 2]. *)
Lemma zram_get_stat_exact_total_witness :
  zram_devices st_demo !! 1%nat = Some zram_open /\
  zram_get_stat 1 (Some 1%nat) ZRAM_STAT_NOTIFY_FREE st_demo =
    Ret (2 ^ 64 - 2, with_event EvWarnOn st_demo).
Proof.
  split; [reflexivity|].
  exact (proj1 (zram_get_stat_exact_total 0 st_demo 1 zram_open
                  ZRAM_STAT_NOTIFY_FREE eq_refl)).
Defined.

(** Writing [4097] with 4096-byte pages stores [4096], that is 8 sectors. *)
Lemma disksize_store_rounds_down_witness :
  parse_unsigned 64 "4097" = Some 4097 /\
  disksize_store 12 res_cleared 100 "4097" 5 st_demo =
    Ret (5, with_devices (<[0%nat := resized 12 4097 zram_fresh]> (zram_devices st_demo))
              st_demo) /\
  disksize (resized 12 4097 zram_fresh) = 4096 /\
  capacity (disk (resized 12 4097 zram_fresh)) = 8.
Proof.
  split; [reflexivity|].
  split; [|split; reflexivity].
  exact (proj1 (disksize_store_rounds_down 12 res_cleared st_demo 100 0 zram_fresh "4097" 5 4097
                  page_shift_12 resolves_fresh eq_refl eq_refl)).
Defined.

(** Two holders: busy, even for a payload that is no number. *)
Lemma reset_store_busy_witness :
  bd_holders {| bd_holders := 2 |} <> 0 /\
  reset_store 32 101 "x" 1 st_demo = Ret (- EBUSY, st_demo).
Proof.
  split; [discriminate|].
  apply (reset_store_busy 32 st_demo 101 1 zram_open {| bd_holders := 2 |} "x" 1
           resolves_open eq_refl).
  discriminate.
Defined.

(** An initialized device without holders is flushed and reset. *)
Lemma reset_store_idle_witness :
  reset_store 32 103 "1" 1 st_demo =
    Ret (1, {| zram_devices :=
                 [zram_fresh; zram_open; zram_nobdev; reset_descriptor zram_idle];
               trace := [EvResetDevice 3; EvFsyncBdev 103] |}).
Proof.
  refine (proj2 (proj2 (proj2 (reset_store_idle 32 st_demo 103 3 zram_idle
                                 {| bd_holders := 0 |} "1" 1
                                 resolves_idle eq_refl eq_refl))
                       1 eq_refl _) _); discriminate.
Defined.

(** A payload that is no number, on a device of 8192 bytes, through a
    parser that clears its result first: [-EINVAL], and a device of 0 bytes
    whose disk still has 16 sectors. *)
Lemma disksize_store_failures_witness :
  disksize_store 12 res_cleared 100 "abc" 3 st_after_8192 =
    Ret (- EINVAL, st_after_failed_parse) /\
  disksize <$> zram_devices st_after_8192 !! 0%nat = Some 8192 /\
  disksize <$> zram_devices st_after_failed_parse !! 0%nat = Some 0 /\
  capacity <$> (disk <$> zram_devices st_after_failed_parse !! 0%nat) = Some 16.
Proof.
  split; [|repeat split].
  refine (proj1 (proj2 (disksize_store_failures 12 res_cleared st_after_8192 100 0
                          (set_disk (with_capacity 16 (disk zram_fresh))
                                    (set_disksize 8192 zram_fresh))
                          "abc" 3 _) eq_refl eq_refl)).
  split; reflexivity.
Defined.

(** A handle attached to none of the four descriptors yields the fourth. *)
Lemma dev_to_zram_no_match_returns_last_witness :
  dev_to_zram 999 st_demo = Ret (Some 3%nat, st_demo).
Proof.
  apply (dev_to_zram_no_match_returns_last st_demo 999).
  - discriminate.
  - repeat constructor; discriminate.
Defined.

(** Writing [8192] and then [4096] leaves [4096]. *)
Lemma disksize_store_twice_witness :
  disksize_store 12 res_cleared 100 "8192" 5 st_demo = Ret (5, st_after_8192) /\
  disksize_store 12 res_cleared 100 "4096" 5 st_after_8192 = Ret (5, st_after_4096).
Proof.
  pose proof (disksize_store_twice 12 res_cleared st_demo 100 0 zram_fresh "8192" 5 8192 "4096" 5 4096
                page_shift_12 resolves_fresh eq_refl eq_refl eq_refl) as [H1 [_ [H2 _]]].
  split; [exact H1|exact H2].
Defined.

(** C7 (as stated, refuted). After a successful write of [8192] the second
    write of [4096] is not answered with [-EBUSY]: it returns its length and
    the stored capacity changes from [8192] to [4096]. *)
Lemma disksize_store_second_write_not_busy :
  disksize_store 12 res_cleared 100 "8192" 5 st_demo = Ret (5, st_after_8192) /\
  disksize <$> zram_devices st_after_8192 !! 0%nat = Some 8192 /\
  disksize_store 12 res_cleared 100 "4096" 5 st_after_8192 = Ret (5, st_after_4096) /\
  disksize <$> zram_devices st_after_4096 !! 0%nat = Some 4096 /\
  disksize_store 12 res_cleared 100 "4096" 5 st_after_8192 <> Ret (- EBUSY, st_after_8192).
Proof.
  repeat split; try reflexivity. vm_compute. discriminate.
Qed.

(** The pool holds 12288 bytes and two pages expanded: 20480. *)
Lemma mem_used_total_show_value_witness :
  mem_used_total_show 12 1 101 st_demo = Ret ((6, text_line "20480"), st_demo).
Proof.
  refine (proj1 (proj2 (mem_used_total_show_value 12 0 st_demo 101 1 zram_open
                          resolves_open)) _ 2 st_demo eq_refl).
  discriminate.
Defined.

(** Three pages stored: 12288 bytes. *)
Lemma orig_data_size_show_value_witness :
  orig_data_size_show 12 1 101 st_demo = Ret ((6, text_line "12288"), st_demo).
Proof.
  exact (proj1 (orig_data_size_show_value 12 0 st_demo 101 1 zram_open resolves_open)
           3 st_demo eq_refl).
Defined.

(** No block device to look at: the write faults. *)
Lemma reset_store_null_bdev_witness :
  bdget_disk (disk zram_nobdev) = None /\
  reset_store 32 102 "1" 1 st_demo = Oops.
Proof.
  split; [reflexivity|].
  exact (proj1 (reset_store_null_bdev 32 st_demo 102 2 zram_nobdev "1" 1
                  resolves_nobdev eq_refl)).
Defined.

(** ** The further properties at work *)

Lemma resolves_reads :
  resolves st_reads 200 0 (zram_reads [cpu_reads 9 2; cpu_reads (-2) 8]).
Proof. split; reflexivity. Qed.

Lemma st_demo_nonempty : zram_devices st_demo <> [].
Proof. discriminate. Qed.

(** Handle 102 is found in slot 2. *)
Lemma dev_to_zram_first_match_witness :
  dev_to_zram 102 st_demo = Ret (Some 2%nat, st_demo).
Proof.
  apply (dev_to_zram_first_match st_demo 102 2 zram_nobdev eq_refl eq_refl).
  intros j z' Hj Hl. destruct j as [|[|j]]; [| |lia];
    injection Hl as <-; discriminate.
Defined.

(** With no device every handler faults. *)
Lemma handlers_fault_on_empty_table_witness :
  zram_devices st_empty = [] /\
  Forall (fun a =>
            (forall f, show a = Some f -> f 1%nat 100 st_empty = Oops) /\
            (forall g, store a = Some g -> g 100 "1"%string 1 st_empty = Oops))
         (zram_disk_attrs 12 32 res_cleared).
Proof.
  split; [reflexivity|].
  exact (handlers_fault_on_empty_table 12 32 res_cleared st_empty 100 1 "1" 1 eq_refl).
Defined.

(** Handle 999 is served as handle 103, the last device of the table. *)
Lemma unmatched_handle_served_as_last_witness :
  Forall (fun a =>
            (forall f, show a = Some f -> f 1%nat 999 st_demo = f 1%nat 103 st_demo) /\
            (forall g, store a = Some g -> g 999 "1"%string 1 st_demo = g 103 "1"%string 1 st_demo))
         (zram_disk_attrs 12 32 res_cleared).
Proof.
  apply (unmatched_handle_served_as_last 12 32 res_cleared st_demo 999 103 zram_idle 1 "1" 1).
  - repeat constructor; discriminate.
  - exact resolves_idle.
Defined.

Lemma disksize_store_frame_witness :
  exists r st',
    disksize_store 12 res_cleared 100 "4097" 5 st_demo = Ret (r, st') /\
    length (zram_devices st') = length (zram_devices st_demo) /\
    (forall j z, zram_devices st_demo !! j = Some z ->
       exists z', zram_devices st' !! j = Some z' /\ same_identity z z' /\
                  (dev_to_zram 100 st_demo <> Ret (Some j, st_demo) -> z' = z)) /\
    (trace st' = trace st_demo \/
     trace st' = EvPrInfo cannot_change_msg :: trace st_demo).
Proof.
  exact (disksize_store_frame 12 res_cleared st_demo 100 "4097" 5 st_demo_nonempty).
Defined.

Lemma sector_within_page_12 : SECTOR_SHIFT <= 12 < 64.
Proof. unfold SECTOR_SHIFT. lia. Qed.

Lemma disksize_store_page_aligned_witness :
  exists z',
    disksize_store 12 res_cleared 100 "4097" 5 st_demo =
      Ret (5, with_devices (<[0%nat := z']> (zram_devices st_demo)) st_demo) /\
    disksize z' mod PAGE_SIZE 12 = 0 /\
    0 <= disksize z' <= 4097 /\
    capacity (disk z') * 2 ^ SECTOR_SHIFT = disksize z'.
Proof.
  exact (disksize_store_page_aligned 12 res_cleared st_demo 100 0 zram_fresh "4097" 5 4097
           sector_within_page_12 resolves_fresh eq_refl eq_refl).
Defined.

(** A request of 100 bytes is accepted and stored as nothing. *)
Lemma disksize_store_boundaries_witness :
  exists z',
    disksize_store 12 res_cleared 100 "100" 3 st_demo =
      Ret (3, with_devices (<[0%nat := z']> (zram_devices st_demo)) st_demo) /\
    (100 < PAGE_SIZE 12 -> disksize z' = 0 /\ capacity (disk z') = 0) /\
    (100 mod PAGE_SIZE 12 = 0 -> disksize z' = 100).
Proof.
  exact (disksize_store_boundaries 12 res_cleared st_demo 100 0 zram_fresh "100" 3 100
           page_shift_12 resolves_fresh eq_refl eq_refl).
Defined.

Lemma disksize_show_after_store_witness :
  exists st' digits,
    disksize_store 12 res_cleared 100 "4097" 5 st_demo = Ret (5, st') /\
    disksize_show 100 st' =
      Ret ((Z.of_nat (String.length digits) + 1, text_line digits), st') /\
    parse_unsigned 64 digits = Some (PAGE_SIZE 12 * (4097 / PAGE_SIZE 12)) /\
    (forall len', disksize_store 12 res_cleared 100 digits len' st' = Ret (len', st')).
Proof.
  exact (disksize_show_after_store 12 res_cleared st_demo 100 0 zram_fresh "4097" 5 4097
           page_shift_12 resolves_fresh eq_refl eq_refl).
Defined.

Lemma reset_store_uninitialized_keeps_table_witness :
  (bdget_disk (disk zram_fresh) = None /\ reset_store 32 100 "1" 1 st_demo = Oops) \/
  (exists r st',
     reset_store 32 100 "1" 1 st_demo = Ret (r, st') /\
     zram_devices st' = zram_devices st_demo /\
     ((trace st' = trace st_demo /\ (r = - EBUSY \/ r = - EINVAL)) \/
      (trace st' = EvFsyncBdev (disk_to_dev (disk zram_fresh)) :: trace st_demo /\
       r = 1))).
Proof.
  exact (reset_store_uninitialized_keeps_table 32 st_demo 100 0 zram_fresh "1" 1
           resolves_fresh eq_refl).
Defined.

(** Shards 9 and -2, or -2 and 9 with other markers: seven reads either way. *)
Lemma zram_get_stat_order_independent_witness :
  exists v acc,
    zram_get_stat 1 (Some 0%nat) ZRAM_STAT_NUM_READS st_reads =
      Ret (v, warned acc st_reads) /\
    zram_get_stat 3 (Some 0%nat) ZRAM_STAT_NUM_READS st_reads_swapped =
      Ret (v, warned acc st_reads_swapped).
Proof.
  apply (zram_get_stat_order_independent 0 2 st_reads st_reads_swapped 0 0
           (zram_reads [cpu_reads 9 2; cpu_reads (-2) 8])
           (zram_reads [cpu_reads (-2) 4; cpu_reads 9 6])
           ZRAM_STAT_NUM_READS eq_refl eq_refl).
  apply perm_swap.
Defined.

(** One more read counted on the second CPU: eight instead of seven. *)
Lemma zram_get_stat_shard_delta_witness :
  exists v v' st1 st1',
    zram_get_stat 1 (Some 0%nat) ZRAM_STAT_NUM_READS st_reads = Ret (v, st1) /\
    zram_get_stat 1 (Some 0%nat) ZRAM_STAT_NUM_READS st_reads_more = Ret (v', st1') /\
    v' = (v + 1) mod 2 ^ 64.
Proof.
  exact (zram_get_stat_shard_delta 0 st_reads st_reads_more 0 0
           (zram_reads [cpu_reads 9 2; cpu_reads (-2) 8])
           (zram_reads [cpu_reads 9 2; cpu_reads (-1) 10])
           ZRAM_STAT_NUM_READS 1 (cpu_reads (-2) 8) (cpu_reads (-1) 10) 1
           eq_refl eq_refl eq_refl eq_refl eq_refl).
Defined.

Lemma readers_are_read_only_witness :
  Forall (fun a => forall f, show a = Some f -> read_only_at st_demo (f 1%nat 101 st_demo))
         (zram_disk_attrs 12 32 res_cleared).
Proof.
  exact (readers_are_read_only 12 32 res_cleared st_demo 101 0 st_demo_nonempty).
Defined.

(** Seven reads are printed as 7. *)
Lemma counter_readers_exact_witness :
  num_reads_show 1 200 st_reads = Ret ((2, text_line "7"), st_reads).
Proof.
  refine (proj1 (counter_readers_exact 0 st_reads 200 0 _ resolves_reads) _).
  unfold max_s64. cbn. lia.
Defined.

Lemma orig_data_size_is_page_multiple_witness :
  exists v st',
    orig_data_size_show 12 1 101 st_demo = Ret (sprintf_llu v, st') /\
    0 <= v < 2 ^ 64 /\
    v mod PAGE_SIZE 12 = 0.
Proof.
  refine (orig_data_size_is_page_multiple 12 0 st_demo 101 1 zram_open _ resolves_open).
  lia.
Defined.
